(** * Shallow embedding of the cart, checkout and search code of
    [src/db/crud.py] (textual-invmgr).

    The SQLite store is modelled as a record of tables.  The products table
    is kept as the list of its rows in ascending [pid] order (its primary
    key), so that [SELECT ... WHERE cond ORDER BY pid] is a [filter] of it.
    The other tables are lists of rows in insertion order: [INSERT] appends,
    [DELETE ... WHERE cond] filters.  Each [async with connect()] block is
    one function of the small state/error monad [M] below; a Python
    [raise] is the [Err] result. *)

From Stdlib Require Import ZArith List Bool String Ascii Lia Sorting.Sorted Sorting.Permutation.
From Stdlib Require QArith.QArith_base.
Import ListNotations.
Open Scope Z_scope.

(** ** Rows (src/db/models.py) *)

Record product := mkProduct {
  pid : Z;
  name : string;
  category : string;
  price : Z;
  stock_count : Z;
  descr : string
}.

Record cart_row := mkCartRow {
  c_cid : Z;
  c_sessionNo : Z;
  c_pid : Z;
  c_qty : Z
}.

Record order := mkOrder {
  o_ono : Z;
  o_cid : Z;
  o_sessionNo : Z;
  o_odate : Z;
  o_shipping_address : string
}.

Record orderline := mkOrderLine {
  l_ono : Z;
  l_lineNo : Z;
  l_pid : Z;
  l_qty : Z;
  l_uprice : Z
}.

Record search_rec := mkSearch {
  s_cid : Z;
  s_sessionNo : Z;
  s_ts : Z;
  s_query : string
}.

Record db := mkDb {
  products : list product;
  cart : list cart_row;
  orders : list order;
  orderlines : list orderline;
  search : list search_rec
}.

Definition set_products (d : db) (ps : list product) : db :=
  mkDb ps d.(cart) d.(orders) d.(orderlines) d.(search).
Definition set_cart (d : db) (cs : list cart_row) : db :=
  mkDb d.(products) cs d.(orders) d.(orderlines) d.(search).
Definition set_orders (d : db) (os : list order) : db :=
  mkDb d.(products) d.(cart) os d.(orderlines) d.(search).
Definition set_orderlines (d : db) (ls : list orderline) : db :=
  mkDb d.(products) d.(cart) d.(orders) ls d.(search).
Definition set_search (d : db) (ss : list search_rec) : db :=
  mkDb d.(products) d.(cart) d.(orders) d.(orderlines) ss.

(** ** The state/error monad of one connection block *)

Inductive exn := ValueError (msg : string).

(** [Diverge]: a [while True] loop that has not exited on the random
    draws it was given. *)
Inductive result (A : Type) :=
| Ok (a : A)
| Err (e : exn)
| Diverge.
Arguments Ok {A} a.
Arguments Err {A} e.
Arguments Diverge {A}.

Definition M (A : Type) := db -> result A * db.

Definition ret {A} (a : A) : M A := fun d => (Ok a, d).
Definition raise {A} (e : exn) : M A := fun d => (Err e, d).
Definition bind {A B} (m : M A) (k : A -> M B) : M B :=
  fun d => match m d with
           | (Ok a, d') => k a d'
           | (Err e, d') => (Err e, d')
           | (Diverge, d') => (Diverge, d')
           end.

Notation "x <- m ;; k" := (bind m (fun x => k))
  (at level 61, m at next level, right associativity).
Notation "m ;; k" := (bind m (fun _ => k))
  (at level 61, right associativity).

(** ** SQL statements used by the cart code *)

Definition pair_row (cid p : Z) (r : cart_row) : bool :=
  (r.(c_cid) =? cid) && (r.(c_pid) =? p).

(** [SELECT stock_count FROM products WHERE pid = ?] with [fetchone]. *)
Definition find_product (p : Z) (ps : list product) : option product :=
  find (fun r => r.(pid) =? p) ps.

Definition select_stock (p : Z) : M (option Z) :=
  fun d => (Ok (option_map stock_count (find_product p d.(products))), d).

(** [int(row[0]) if row else 0] *)
Definition stock_or_zero (row : option Z) : Z :=
  match row with Some st => st | None => 0 end.

Definition sum_qty (rs : list cart_row) : Z :=
  fold_right (fun r acc => r.(c_qty) + acc) 0 rs.

(** [SELECT COALESCE(SUM(qty), 0) FROM cart WHERE cid=? AND pid=?] *)
Definition select_pair_total (cid p : Z) : M Z :=
  fun d => (Ok (sum_qty (filter (pair_row cid p) d.(cart))), d).

(** [DELETE FROM cart WHERE cid=? AND pid=?] *)
Definition delete_pair (cid p : Z) : M unit :=
  fun d => (Ok tt, set_cart d (filter (fun r => negb (pair_row cid p r)) d.(cart))).

(** [DELETE FROM cart WHERE cid=?] *)
Definition delete_customer_cart (cid : Z) : M unit :=
  fun d => (Ok tt, set_cart d (filter (fun r => negb (r.(c_cid) =? cid)) d.(cart))).

(** [INSERT INTO cart(cid, sessionNo, pid, qty) VALUES(?, ?, ?, ?)] *)
Definition insert_cart (r : cart_row) : M unit :=
  fun d => (Ok tt, set_cart d (d.(cart) ++ [r])).

(** ** Cart management (crud.py, lines 488-573) *)

Definition add_to_cart (cid sessionNo p qty : Z) : M unit :=
  row <- select_stock p ;;
  let stock := stock_or_zero row in
  if (stock <=? 0) || (qty <=? 0) then ret tt else
  cur_total <- select_pair_total cid p ;;
  let new_total := Z.min (cur_total + qty) stock in
  delete_pair cid p ;;
  insert_cart (mkCartRow cid sessionNo p new_total).

Definition update_cart_qty (cid sessionNo p qty : Z) : M unit :=
  if qty <? 0 then raise (ValueError "Quantity cannot be negative.") else
  if qty =? 0 then delete_pair cid p else
  row <- select_stock p ;;
  let stock := stock_or_zero row in
  let qty' := Z.min qty stock in
  delete_pair cid p ;;
  insert_cart (mkCartRow cid sessionNo p qty').

Definition remove_from_cart (cid sessionNo p : Z) : M unit :=
  delete_pair cid p.

Definition clear_cart (cid sessionNo : Z) : M unit :=
  delete_customer_cart cid.

(** crud.py, lines 883-908 *)
Definition set_cart_qty_if_in_stock (cid sessionNo p qty : Z) : M bool :=
  if qty <? 0 then ret false else
  row <- select_stock p ;;
  let stock := stock_or_zero row in
  if qty >? stock then ret false else
  delete_pair cid p ;;
  insert_cart (mkCartRow cid sessionNo p qty) ;;
  ret true.

(** ** Checkout (crud.py, lines 581-641) *)

(** [SELECT pid, SUM(qty) FROM cart WHERE cid=? GROUP BY pid]: one group
    per distinct pid of the customer's rows, with the summed quantity.  SQL
    leaves the order of the groups open; the model lists the pids in the
    order [nodup] keeps them. *)
Definition group_cart (cid : Z) (cs : list cart_row) : list (Z * Z) :=
  let rs := filter (fun r => r.(c_cid) =? cid) cs in
  map (fun p => (p, sum_qty (filter (fun r => r.(c_pid) =? p) rs)))
      (nodup Z.eq_dec (map c_pid rs)).

Definition select_grouped_cart (cid : Z) : M (list (Z * Z)) :=
  fun d => (Ok (group_cart cid d.(cart)), d).

(** The rejection loop [while True: ono = random.randint(...); if not
    exists: break], run on the list of values [random.randint] returns. *)
Fixpoint pick_ono (draws : list Z) (os : list order) : option Z :=
  match draws with
  | [] => None
  | x :: rest =>
      if existsb (fun o => o.(o_ono) =? x) os then pick_ono rest os else Some x
  end.

Definition select_fresh_ono (draws : list Z) : M Z :=
  fun d => match pick_ono draws d.(orders) with
           | Some ono => (Ok ono, d)
           | None => (Diverge, d)
           end.

Definition insert_order (o : order) : M unit :=
  fun d => (Ok tt, set_orders d (d.(orders) ++ [o])).

(** [SELECT price, stock_count FROM products WHERE pid=?] *)
Definition select_price_stock (p : Z) : M (option (Z * Z)) :=
  fun d => (Ok (option_map (fun pr => (pr.(price), pr.(stock_count)))
                           (find_product p d.(products))), d).

Definition insert_orderline (l : orderline) : M unit :=
  fun d => (Ok tt, set_orderlines d (d.(orderlines) ++ [l])).

Definition with_stock (pr : product) (n : Z) : product :=
  mkProduct pr.(pid) pr.(name) pr.(category) pr.(price) n pr.(descr).

(** [UPDATE products SET stock_count = stock_count - ? WHERE pid = ?] *)
Definition decrement_rows (p n : Z) (ps : list product) : list product :=
  map (fun pr => if pr.(pid) =? p then with_stock pr (pr.(stock_count) - n) else pr) ps.

Definition decrement_stock (p n : Z) : M unit :=
  fun d => (Ok tt, set_products d (decrement_rows p n d.(products))).

(** The [for pid, qty in cart_rows] loop, [line_no] threaded through. *)
Fixpoint checkout_lines (ono line_no : Z) (rows : list (Z * Z)) : M unit :=
  match rows with
  | [] => ret tt
  | (p, qty) :: rest =>
      row <- select_price_stock p ;;
      match row with
      | None => checkout_lines ono line_no rest
      | Some (pr, stock) =>
          let use_qty := Z.min qty stock in
          if use_qty <=? 0 then checkout_lines ono line_no rest else
          insert_orderline (mkOrderLine ono line_no p use_qty pr) ;;
          decrement_stock p use_qty ;;
          checkout_lines ono (line_no + 1) rest
      end
  end.

Definition checkout (draws : list Z) (cid sessionNo : Z)
    (shipping_address : string) (odate : Z) : M Z :=
  cart_rows <- select_grouped_cart cid ;;
  ono <- select_fresh_ono draws ;;
  insert_order (mkOrder ono cid sessionNo odate shipping_address) ;;
  checkout_lines ono 1 cart_rows ;;
  delete_customer_cart cid ;;
  ret ono.

(** [list_cart]: [SELECT cid, pid, SUM(qty) FROM cart WHERE cid = ?
    GROUP BY cid, pid]. *)
Definition list_cart (cid sessionNo : Z) : M (list cart_row) :=
  fun d => (Ok (map (fun '(p, q) => mkCartRow cid sessionNo p q)
                    (group_cart cid d.(cart))), d).

(** *** The checkout of the spec (section 4.3), against one snapshot of the
    catalog: which grouped lines are committed, with which quantity and
    price, and how they are numbered. *)

Definition commit_line (ps : list product) (line : Z * Z) : option (Z * Z * Z) :=
  let (p, qty) := line in
  match find_product p ps with
  | None => None
  | Some pr =>
      let committedQty := Z.min qty pr.(stock_count) in
      if committedQty <=? 0 then None else Some (p, committedQty, pr.(price))
  end.

Fixpoint committed_lines (ps : list product) (rows : list (Z * Z)) : list (Z * Z * Z) :=
  match rows with
  | [] => []
  | line :: rest =>
      match commit_line ps line with
      | Some c => c :: committed_lines ps rest
      | None => committed_lines ps rest
      end
  end.

Fixpoint number_lines (ono n : Z) (cs : list (Z * Z * Z)) : list orderline :=
  match cs with
  | [] => []
  | (p, q, pr) :: rest => mkOrderLine ono n p q pr :: number_lines ono (n + 1) rest
  end.

Definition committed_for (cs : list (Z * Z * Z)) (p : Z) : Z :=
  fold_right (fun '(p', q, _) acc => if p' =? p then q + acc else acc) 0 cs.

Definition after_checkout_stock (cs : list (Z * Z * Z)) (ps : list product) : list product :=
  map (fun pr => with_stock pr (pr.(stock_count) - committed_for cs pr.(pid))) ps.

(** ** Text: Python's [str.strip], [str.lower], [str.split], [str.isdigit]
    and SQLite's [LOWER] and [LIKE], over ASCII text. *)

Definition chars := list ascii.

(** [str.isspace] on ASCII: tab, newline, vertical tab, form feed, carriage
    return, the separators 0x1c-0x1f, and space. *)
Definition is_space (c : ascii) : bool :=
  let n := N_of_ascii c in
  ((9 <=? n) && (n <=? 13))%N || ((28 <=? n) && (n <=? 32))%N.

(** [str.lower] on ASCII, and SQLite's [LOWER] (ASCII only). *)
Definition lower_ascii (c : ascii) : ascii :=
  let n := N_of_ascii c in
  if ((65 <=? n) && (n <=? 90))%N then ascii_of_N (n + 32) else c.

Definition lower (s : chars) : chars := map lower_ascii s.

Fixpoint strip_left (s : chars) : chars :=
  match s with
  | c :: s' => if is_space c then strip_left s' else s
  | [] => []
  end.

Definition strip (s : chars) : chars := rev (strip_left (rev (strip_left s))).

(** [str.split()] with no separator: maximal runs of non-space characters. *)
Fixpoint split_aux (cur : chars) (s : chars) : list chars :=
  match s with
  | [] => match cur with [] => [] | _ => [rev cur] end
  | c :: s' =>
      if is_space c then
        match cur with
        | [] => split_aux [] s'
        | _ => rev cur :: split_aux [] s'
        end
      else split_aux (c :: cur) s'
  end.

Definition py_split (s : chars) : list chars := split_aux [] s.

Definition is_digit (c : ascii) : bool :=
  let n := N_of_ascii c in ((48 <=? n) && (n <=? 57))%N.

(** [str.isdigit] on ASCII: non-empty and all digits. *)
Definition isdigit (s : chars) : bool :=
  match s with [] => false | _ => forallb is_digit s end.

(** [int(s)] on a string of decimal digits. *)
Definition digits_value (s : chars) : Z :=
  fold_left (fun acc c => 10 * acc + (Z.of_N (N_of_ascii c) - 48)) s 0.

(** [(query or "").strip().lower()] *)
Definition normalize (q : string) : chars := lower (strip (list_ascii_of_string q)).

Definition ascii_ci_eq (a b : ascii) : bool :=
  Ascii.eqb (lower_ascii a) (lower_ascii b).

(** SQLite [LIKE] without [ESCAPE]: [%] matches any run of characters, [_]
    any one character, other characters match up to ASCII case. *)
Fixpoint like (pat : chars) (s : chars) : bool :=
  match pat with
  | [] => match s with [] => true | _ => false end
  | c :: pat' =>
      if Ascii.eqb c "%"%char then
        (fix star (s : chars) : bool :=
           like pat' s || match s with [] => false | _ :: s' => star s' end) s
      else
        match s with
        | [] => false
        | x :: s' => (Ascii.eqb c "_"%char || ascii_ci_eq c x) && like pat' s'
        end
  end.

(** [LOWER(col) LIKE '%t%'] *)
Definition like_contains (t : chars) (col : string) : bool :=
  like ("%"%char :: t ++ ["%"%char]) (lower (list_ascii_of_string col)).

(** [LOWER(name) LIKE ? OR LOWER(descr) LIKE ?] with [?] bound to [%t%]. *)
Definition name_descr_like (t : chars) (pr : product) : bool :=
  like_contains t pr.(name) || like_contains t pr.(descr).

(** *** Case-insensitive substring, as the spec words it *)

Fixpoint prefix_ci (t s : chars) : bool :=
  match t, s with
  | [], _ => true
  | _ :: _, [] => false
  | a :: t', b :: s' => ascii_ci_eq a b && prefix_ci t' s'
  end.

Fixpoint substring_ci (t s : chars) : bool :=
  prefix_ci t s || match s with [] => false | _ :: s' => substring_ci t s' end.

Definition name_descr_contains (t : chars) (pr : product) : bool :=
  substring_ci t (list_ascii_of_string pr.(name)) ||
  substring_ci t (list_ascii_of_string pr.(descr)).

(** ** Product search (crud.py, lines 183-432) *)

(** [SELECT ... FROM products ORDER BY pid] *)
Definition select_all_products : M (list product) :=
  fun d => (Ok d.(products), d).

(** [SELECT ... FROM products WHERE pid = ? ORDER BY pid] *)
Definition select_pid (n : Z) : M (list product) :=
  fun d => (Ok (filter (fun pr => pr.(pid) =? n) d.(products)), d).

(** [SELECT ... WHERE LOWER(name) LIKE ? OR LOWER(descr) LIKE ? ORDER BY pid] *)
Definition select_like (t : chars) : M (list product) :=
  fun d => (Ok (filter (name_descr_like t) d.(products)), d).

Definition mem_Z (x : Z) (l : list Z) : bool := existsb (Z.eqb x) l.

Definition mem_chars (w : chars) (l : list chars) : bool :=
  existsb (fun v => if list_eq_dec ascii_dec w v then true else false) l.

(** [add_rows]: the [results] list and the [seen] set of pids. *)
Fixpoint add_rows (acc : list product * list Z) (rows : list product)
  : list product * list Z :=
  match rows with
  | [] => acc
  | row :: rest =>
      let '(results, seen) := acc in
      if mem_Z row.(pid) seen then add_rows acc rest
      else add_rows (results ++ [row], row.(pid) :: seen) rest
  end.

(** [for w in words: if w in seen_words: continue; ...] *)
Fixpoint word_stages (seen_words : list chars) (words : list chars)
    (acc : list product * list Z) : M (list product * list Z) :=
  match words with
  | [] => ret acc
  | w :: ws =>
      if mem_chars w seen_words then word_stages seen_words ws acc else
      wrows <- select_like w ;;
      word_stages (w :: seen_words) ws (add_rows acc wrows)
  end.

Definition mixed_product_search_sales (query : string) : M (list product) :=
  let phrase := normalize query in
  match phrase with
  | [] => select_all_products
  | _ =>
    if isdigit phrase then
      rows <- select_pid (digits_value phrase) ;;
      let acc := add_rows ([], []) rows in
      match rows with
      | [] => rows2 <- select_like phrase ;; ret (fst (add_rows acc rows2))
      | _ => ret (fst acc)
      end
    else
      let words := py_split phrase in
      if 1 <? Z.of_nat (List.length words) then
        rows <- select_like phrase ;;
        acc <- word_stages [] words (add_rows ([], []) rows) ;;
        ret (fst acc)
      else
        select_like phrase
  end.

(** The [terms] list of [search_products]. *)
Fixpoint unique_words (seen : list chars) (words : list chars) : list chars :=
  match words with
  | [] => []
  | w :: ws =>
      if mem_chars w seen then unique_words seen ws
      else w :: unique_words (w :: seen) ws
  end.

Definition search_terms (phrase : chars) : list chars :=
  let words := py_split phrase in
  match phrase with
  | [] => []
  | _ =>
    if 1 <? Z.of_nat (List.length words) then phrase :: unique_words [phrase] words
    else [phrase]
  end.

(** The dynamic [WHERE] clause: an OR over the terms, [1 = 0] without one. *)
Definition where_terms (terms : list chars) (pr : product) : bool :=
  existsb (fun t => name_descr_like t pr) terms.

(** SQLite [LIMIT l OFFSET o]: a negative offset counts as 0, a negative
    limit sets no bound. *)
Definition limit_offset {A} (l o : Z) (rows : list A) : list A :=
  let rest := skipn (Z.to_nat o) rows in
  if l <? 0 then rest else firstn (Z.to_nat l) rest.

Definition select_count (cond : product -> bool) : M Z :=
  fun d => (Ok (Z.of_nat (List.length (filter cond d.(products)))), d).

Definition select_page (cond : product -> bool) (l o : Z) : M (list product) :=
  fun d => (Ok (limit_offset l o (filter cond d.(products))), d).

Definition insert_search (r : search_rec) : M unit :=
  fun d => (Ok tt, set_search d (d.(search) ++ [r])).

Definition search_products (keyword : string) (cid sessionNo when page page_size : Z)
  : M (list product * Z) :=
  let phrase := normalize keyword in
  let terms := search_terms phrase in
  total <- select_count (where_terms terms) ;;
  let offset := Z.max (page - 1) 0 * page_size in
  rows <- select_page (where_terms terms) page_size offset ;;
  insert_search (mkSearch cid sessionNo when keyword) ;;
  ret (rows, total).

(** The products table is keyed by [pid] and kept in ascending order. *)
Definition pid_sorted (ps : list product) : Prop :=
  Sorted (fun a b => a.(pid) < b.(pid)) ps.

(** *** AdminSearch on two or more words, as the spec words it: the
    matches of the phrase in pid order, then for each token the matches
    not emitted yet, in pid order.  [matches t pr] is the match test. *)
Definition staged_search (matches : chars -> product -> bool) (phrase : chars)
    (tokens : list chars) (ps : list product) : list product :=
  fold_left (fun acc t =>
               acc ++ filter (fun pr => matches t pr && negb (mem_Z pr.(pid) (map pid acc))) ps)
            tokens (filter (matches phrase) ps).

(** ** The cart ledger seen through the code *)

(** The stock the cart code reads: [int(row[0]) if row else 0]. *)
Definition current_stock (d : db) (p : Z) : Z :=
  stock_or_zero (option_map stock_count (find_product p d.(products))).

Definition remove_pair (cid p : Z) (cs : list cart_row) : list cart_row :=
  filter (fun r => negb (pair_row cid p r)) cs.

(** The quantity the ledger holds for a pair: the sum over its rows. *)
Definition qty_of (cid p : Z) (cs : list cart_row) : Z :=
  sum_qty (filter (pair_row cid p) cs).

Inductive cart_call :=
| AddQuantity (cid sessionNo p qty : Z)
| SetQuantity (cid sessionNo p qty : Z).

Definition run_call (call : cart_call) (d : db) : db :=
  match call with
  | AddQuantity c s p q => snd (add_to_cart c s p q d)
  | SetQuantity c s p q => snd (update_cart_qty c s p q d)
  end.

Definition run_calls (calls : list cart_call) (d : db) : db :=
  fold_left (fun d call => run_call call d) calls d.

(** The ledger invariant of the spec's data model: at most one row per
    pair, and the pair's quantity within the stock of an existing product. *)
Definition cart_inv (d : db) : Prop :=
  forall c p,
    (List.length (filter (pair_row c p) d.(cart)) <= 1)%nat /\
    (forall pr, find_product p d.(products) = Some pr ->
                qty_of c p d.(cart) <= pr.(stock_count)).

(** ** Lemmas on the cart statements *)

Lemma add_to_cart_eq d c s p q :
  add_to_cart c s p q d =
  if (current_stock d p <=? 0) || (q <=? 0) then (Ok tt, d)
  else (Ok tt, set_cart d (remove_pair c p d.(cart) ++
          [mkCartRow c s p (Z.min (qty_of c p d.(cart) + q) (current_stock d p))])).
Proof.
  unfold add_to_cart, bind, ret, select_stock, current_stock.
  destruct (_ || _); reflexivity.
Qed.

Lemma update_cart_qty_eq d c s p q :
  update_cart_qty c s p q d =
  if q <? 0 then (Err (ValueError "Quantity cannot be negative."), d)
  else if q =? 0 then (Ok tt, set_cart d (remove_pair c p d.(cart)))
  else (Ok tt, set_cart d (remove_pair c p d.(cart) ++
          [mkCartRow c s p (Z.min q (current_stock d p))])).
Proof.
  unfold update_cart_qty, bind, ret, raise, select_stock, current_stock.
  destruct (q <? 0); [reflexivity|]. destruct (q =? 0); reflexivity.
Qed.

Lemma set_cart_qty_if_in_stock_eq d c s p q :
  set_cart_qty_if_in_stock c s p q d =
  if q <? 0 then (Ok false, d)
  else if q >? current_stock d p then (Ok false, d)
  else (Ok true, set_cart d (remove_pair c p d.(cart) ++ [mkCartRow c s p q])).
Proof.
  unfold set_cart_qty_if_in_stock, bind, ret, select_stock, current_stock.
  destruct (q <? 0); [reflexivity|]. destruct (_ >? _); reflexivity.
Qed.

Lemma pair_row_same c s p q : pair_row c p (mkCartRow c s p q) = true.
Proof. unfold pair_row; simpl; now rewrite !Z.eqb_refl. Qed.

Lemma pair_row_true c p r :
  pair_row c p r = true <-> r.(c_cid) = c /\ r.(c_pid) = p.
Proof. unfold pair_row. now rewrite andb_true_iff, !Z.eqb_eq. Qed.

Lemma filter_remove_pair c p c' p' cs :
  filter (pair_row c' p') (remove_pair c p cs) =
  if (c' =? c) && (p' =? p) then [] else filter (pair_row c' p') cs.
Proof.
  unfold remove_pair.
  induction cs as [|r cs IH]; simpl.
  - destruct (_ && _); reflexivity.
  - case_eq (pair_row c p r); intros Hr; simpl; rewrite IH.
    + apply pair_row_true in Hr as [Hc Hp].
      case_eq (pair_row c' p' r); intros Hr'; [|now destruct (_ && _)].
      apply pair_row_true in Hr' as [Hc' Hp']. subst.
      now rewrite !Z.eqb_refl.
    + case_eq ((c' =? c) && (p' =? p)); intros Hb; [|reflexivity].
      apply andb_true_iff in Hb as [Hc Hp]. apply Z.eqb_eq in Hc, Hp. subst.
      now rewrite Hr.
Qed.

Lemma filter_replace_pair c s p q c' p' cs :
  filter (pair_row c' p') (remove_pair c p cs ++ [mkCartRow c s p q]) =
  if (c' =? c) && (p' =? p) then [mkCartRow c s p q]
  else filter (pair_row c' p') cs.
Proof.
  rewrite filter_app, filter_remove_pair. simpl.
  case_eq ((c' =? c) && (p' =? p)); intros Hb.
  - apply andb_true_iff in Hb as [Hc Hp]. apply Z.eqb_eq in Hc, Hp. subst.
    now rewrite pair_row_same.
  - case_eq (pair_row c' p' (mkCartRow c s p q)); intros Hr.
    + apply pair_row_true in Hr as [Hc Hp]; simpl in Hc, Hp. subst.
      now rewrite !Z.eqb_refl in Hb.
    + now rewrite app_nil_r.
Qed.

Lemma current_stock_find d p pr :
  find_product p d.(products) = Some pr -> current_stock d p = pr.(stock_count).
Proof. unfold current_stock. intros ->. reflexivity. Qed.

Lemma remove_pair_absent c p cs :
  filter (pair_row c p) cs = [] -> remove_pair c p cs = cs.
Proof.
  unfold remove_pair. induction cs as [|r cs IH]; simpl; [reflexivity|].
  destruct (pair_row c p r); simpl; [discriminate|]. intros H. now rewrite IH.
Qed.

Lemma remove_pair_idem c p cs :
  remove_pair c p (remove_pair c p cs) = remove_pair c p cs.
Proof.
  apply remove_pair_absent. rewrite filter_remove_pair. now rewrite !Z.eqb_refl.
Qed.

Lemma set_cart_same d : set_cart d d.(cart) = d.
Proof. now destruct d. Qed.

Lemma set_cart_twice d cs cs' : set_cart (set_cart d cs) cs' = set_cart d cs'.
Proof. reflexivity. Qed.

(** *** C10 *)

(** C10: AddQuantity on a pid absent from the catalog reads stock 0, takes
    the no-op branch, and returns without raising and without changing any
    table. *)
Theorem add_to_cart_absent_product_noop d c s p q :
  find_product p d.(products) = None ->
  add_to_cart c s p q d = (Ok tt, d).
Proof.
  intros H. rewrite add_to_cart_eq. unfold current_stock. rewrite H. reflexivity.
Qed.

(** *** C4 *)

(** C4: SetQuantity ([update_cart_qty]) raises exactly when [qty < 0] and
    then changes nothing; with [qty = 0] it deletes the pair's rows (a second
    delete, or a delete of an absent row, changes nothing and raises
    nothing); with [qty > 0] it never raises and replaces the pair's rows by
    one row with the given session and [min qty stock]. *)
Theorem update_cart_qty_contract d c s p q :
  ((exists e, fst (update_cart_qty c s p q d) = Err e) <-> q < 0) /\
  (q < 0 -> snd (update_cart_qty c s p q d) = d) /\
  (0 <= q -> fst (update_cart_qty c s p q d) = Ok tt) /\
  (q = 0 ->
     snd (update_cart_qty c s p q d) = set_cart d (remove_pair c p d.(cart)) /\
     filter (pair_row c p) (snd (update_cart_qty c s p q d)).(cart) = [] /\
     update_cart_qty c s p 0 (snd (update_cart_qty c s p q d)) =
       (Ok tt, snd (update_cart_qty c s p q d)) /\
     (filter (pair_row c p) d.(cart) = [] -> update_cart_qty c s p q d = (Ok tt, d))) /\
  (0 < q ->
     snd (update_cart_qty c s p q d) =
     set_cart d (remove_pair c p d.(cart) ++
                 [mkCartRow c s p (Z.min q (current_stock d p))]) /\
     filter (pair_row c p) (snd (update_cart_qty c s p q d)).(cart) =
       [mkCartRow c s p (Z.min q (current_stock d p))]).
Proof.
  rewrite !update_cart_qty_eq.
  destruct (Z.ltb_spec q 0) as [Hq|Hq].
  - repeat split; intros; try lia; try (exfalso; lia).
    simpl. eexists; reflexivity.
  - destruct (Z.eqb_spec q 0) as [H0|H0]; simpl.
    + subst. repeat split; intros; try lia; try discriminate.
      * destruct H as [e He]; discriminate.
      * simpl. rewrite filter_remove_pair. now rewrite !Z.eqb_refl.
      * simpl. now rewrite remove_pair_idem.
      * rewrite remove_pair_absent by assumption. now rewrite set_cart_same.
    + repeat split; intros; try lia; try discriminate.
      * destruct H as [e He]; discriminate.
      * simpl. rewrite filter_replace_pair. now rewrite !Z.eqb_refl.
Qed.

(** *** C3 *)

(** C3: TrySetQuantityIfInStock ([set_cart_qty_if_in_stock]) returns
    [false] and leaves the database as it was when [qty < 0] or [qty]
    exceeds the stock it reads; otherwise it returns [true], replaces the
    pair's rows by the single row [(cid, sessionNo, pid, qty)], so that the
    ledger holds exactly [qty], and for [qty > 0] its effect is the one of
    SetQuantity. *)
Theorem set_cart_qty_if_in_stock_contract d c s p q :
  ((q < 0 \/ q > current_stock d p) ->
     set_cart_qty_if_in_stock c s p q d = (Ok false, d)) /\
  (0 <= q <= current_stock d p ->
     set_cart_qty_if_in_stock c s p q d =
       (Ok true, set_cart d (remove_pair c p d.(cart) ++ [mkCartRow c s p q])) /\
     filter (pair_row c p) (snd (set_cart_qty_if_in_stock c s p q d)).(cart) =
       [mkCartRow c s p q] /\
     qty_of c p (snd (set_cart_qty_if_in_stock c s p q d)).(cart) = q /\
     (0 < q -> snd (set_cart_qty_if_in_stock c s p q d) =
               snd (update_cart_qty c s p q d))).
Proof.
  rewrite !set_cart_qty_if_in_stock_eq. split.
  - intros [H|H].
    + now replace (q <? 0) with true by (symmetry; apply Z.ltb_lt; lia).
    + destruct (Z.ltb_spec q 0); [reflexivity|].
      now replace (q >? current_stock d p) with true by (symmetry; apply Z.gtb_lt; lia).
  - intros [H1 H2].
    replace (q <? 0) with false by (symmetry; apply Z.ltb_ge; lia).
    replace (q >? current_stock d p) with false
      by (symmetry; rewrite Z.gtb_ltb; apply Z.ltb_ge; lia).
    simpl. rewrite filter_replace_pair, !Z.eqb_refl. simpl.
    repeat split.
    + unfold qty_of. rewrite filter_replace_pair, !Z.eqb_refl. simpl. lia.
    + intros Hq. rewrite update_cart_qty_eq.
      replace (q <? 0) with false by (symmetry; apply Z.ltb_ge; lia).
      replace (q =? 0) with false by (symmetry; apply Z.eqb_neq; lia).
      simpl. now rewrite Z.min_l by lia.
Qed.

(** *** C2 *)

(** The spec's catalog: every [stock_count] is non-negative. *)
Definition stock_nonneg (d : db) : Prop :=
  forall pr, In pr d.(products) -> 0 <= pr.(stock_count).

(** The pair a cart call is keyed by. *)
Definition call_pair (call : cart_call) : Z * Z :=
  match call with
  | AddQuantity c _ p _ => (c, p)
  | SetQuantity c _ p _ => (c, p)
  end.

Lemma run_call_products call d : (run_call call d).(products) = d.(products).
Proof.
  destruct call as [c s p q|c s p q]; simpl.
  - rewrite add_to_cart_eq. now destruct (_ || _).
  - rewrite update_cart_qty_eq. now destruct (q <? 0), (q =? 0).
Qed.

Lemma run_call_other_pair call d c' p' :
  ((c' =? fst (call_pair call)) && (p' =? snd (call_pair call))) = false ->
  filter (pair_row c' p') (run_call call d).(cart) = filter (pair_row c' p') d.(cart).
Proof.
  destruct call as [c s p q|c s p q]; simpl; intros Hb.
  - rewrite add_to_cart_eq. destruct (_ || _); simpl; [reflexivity|].
    now rewrite filter_replace_pair, Hb.
  - rewrite update_cart_qty_eq. destruct (q <? 0); [reflexivity|].
    destruct (q =? 0); simpl.
    + now rewrite filter_remove_pair, Hb.
    + now rewrite filter_replace_pair, Hb.
Qed.

Lemma find_product_in p ps pr : find_product p ps = Some pr -> In pr ps.
Proof. unfold find_product. intros H. now apply find_some in H. Qed.

Lemma cart_inv_step call d :
  stock_nonneg d -> cart_inv d -> cart_inv (run_call call d).
Proof.
  intros Hs Hinv c' p'. rewrite run_call_products.
  case_eq ((c' =? fst (call_pair call)) && (p' =? snd (call_pair call))); intros Hb.
  2:{ unfold qty_of. rewrite run_call_other_pair by exact Hb. apply Hinv. }
  apply andb_true_iff in Hb as [Hc Hp]. apply Z.eqb_eq in Hc, Hp.
  destruct call as [c s p q|c s p q]; simpl in Hc, Hp |- *; subst c' p'.
  - rewrite add_to_cart_eq. destruct (_ || _); simpl; [apply Hinv|].
    unfold qty_of. rewrite filter_replace_pair, !Z.eqb_refl. simpl.
    split; [lia|]. intros pr Hpr. rewrite (current_stock_find _ _ _ Hpr). lia.
  - rewrite update_cart_qty_eq. destruct (q <? 0); [apply Hinv|].
    destruct (q =? 0); simpl; unfold qty_of.
    + rewrite filter_remove_pair, !Z.eqb_refl. simpl.
      split; [lia|]. intros pr Hpr. apply Hs. now apply find_product_in with p.
    + rewrite filter_replace_pair, !Z.eqb_refl. simpl.
      split; [lia|]. intros pr Hpr. rewrite (current_stock_find _ _ _ Hpr). lia.
Qed.

Lemma stock_nonneg_step call d : stock_nonneg d -> stock_nonneg (run_call call d).
Proof. unfold stock_nonneg. now rewrite run_call_products. Qed.

(** C2 (as the code does it): from a ledger that satisfies the invariant
    (at most one row per pair, quantity within stock) over a catalog with
    non-negative stock, every finite sequence of AddQuantity and
    SetQuantity calls keeps it.  A call only touches its own pair.  AddQuantity
    with [qty > 0] and stock [> 0], and SetQuantity with [qty > 0], leave the
    pair with the single row [(cid, sessionNo, pid, capped)], capped at the
    stock; SetQuantity with [qty = 0] leaves the pair no row; AddQuantity
    with [qty <= 0] or stock [<= 0], and SetQuantity with [qty < 0], leave
    the database as it was, unconsolidated rows included. *)
Theorem cart_ledger_invariant :
  (forall calls d, stock_nonneg d -> cart_inv d -> cart_inv (run_calls calls d)) /\
  (forall call d c' p',
     ((c' =? fst (call_pair call)) && (p' =? snd (call_pair call))) = false ->
     filter (pair_row c' p') (run_call call d).(cart) = filter (pair_row c' p') d.(cart)) /\
  (forall d c s p q, 0 < q -> 0 < current_stock d p ->
     filter (pair_row c p) (run_call (AddQuantity c s p q) d).(cart) =
       [mkCartRow c s p (Z.min (qty_of c p d.(cart) + q) (current_stock d p))]) /\
  (forall d c s p q, q <= 0 \/ current_stock d p <= 0 ->
     run_call (AddQuantity c s p q) d = d) /\
  (forall d c s p q, 0 < q ->
     filter (pair_row c p) (run_call (SetQuantity c s p q) d).(cart) =
       [mkCartRow c s p (Z.min q (current_stock d p))]) /\
  (forall d c s p,
     filter (pair_row c p) (run_call (SetQuantity c s p 0) d).(cart) = []) /\
  (forall d c s p q, q < 0 -> run_call (SetQuantity c s p q) d = d).
Proof.
  split; [|split; [|split; [|split; [|split; [|split]]]]].
  - induction calls as [|call calls IH]; intros d Hs Hinv; simpl; [exact Hinv|].
    apply IH; [now apply stock_nonneg_step | now apply cart_inv_step].
  - apply run_call_other_pair.
  - intros d c s p q Hq Hst. cbn [run_call]. rewrite add_to_cart_eq.
    replace ((current_stock d p <=? 0) || (q <=? 0)) with false
      by (symmetry; apply orb_false_iff; split; apply Z.leb_gt; lia).
    simpl. now rewrite filter_replace_pair, !Z.eqb_refl.
  - intros d c s p q H. cbn [run_call]. rewrite add_to_cart_eq.
    replace ((current_stock d p <=? 0) || (q <=? 0)) with true; [reflexivity|].
    symmetry. apply orb_true_iff. destruct H; [right|left]; now apply Z.leb_le.
  - intros d c s p q Hq. cbn [run_call]. rewrite update_cart_qty_eq.
    replace (q <? 0) with false by (symmetry; apply Z.ltb_ge; lia).
    replace (q =? 0) with false by (symmetry; apply Z.eqb_neq; lia).
    simpl. now rewrite filter_replace_pair, !Z.eqb_refl.
  - intros d c s p. cbn [run_call]. rewrite update_cart_qty_eq. simpl.
    now rewrite filter_remove_pair, !Z.eqb_refl.
  - intros d c s p q Hq. cbn [run_call]. rewrite update_cart_qty_eq.
    now replace (q <? 0) with true by (symmetry; apply Z.ltb_lt; lia).
Qed.

(** A catalog with product 10 in stock (5) and a ledger that still holds
    two rows for customer 1 and product 10, from two sessions. *)
Definition keyboard : product :=
  mkProduct 10 "keyboard" "peripherals" 4999 5 "mechanical keyboard".

Definition db_two_rows : db :=
  mkDb [keyboard] [mkCartRow 1 7 10 1; mkCartRow 1 8 10 1] [] [] [].

Definition db_one_row : db :=
  mkDb [keyboard] [mkCartRow 1 7 10 2] [] [] [].

(** C2 counterexample: not every call consolidates the pair into a single
    row.  AddQuantity with delta 0 returns early and leaves both rows of the
    pair; SetQuantity with 0 leaves the pair no row at all. *)
Lemma cart_ledger_not_always_consolidated :
  List.length (filter (pair_row 1 10) (run_call (AddQuantity 1 9 10 0) db_two_rows).(cart)) = 2%nat /\
  filter (pair_row 1 10) (run_call (SetQuantity 1 9 10 0) db_one_row).(cart) = [].
Proof. split; reflexivity. Qed.

(** *** C5 *)

Definition sold_out_keyboard : product :=
  mkProduct 10 "keyboard" "peripherals" 4999 0 "mechanical keyboard".

(** C5 (code_bug): rows with quantity 0 are stored.  SetQuantity with a
    positive quantity on a product whose stock is 0 caps to 0 after its
    [qty == 0] test and inserts the row [(1, 2, 10, 0)];
    TrySetQuantityIfInStock with [qty = 0] returns [true] and inserts the row
    [(1, 2, 10, 0)] where SetQuantity would delete. *)
Theorem zero_quantity_rows_stored :
  (snd (update_cart_qty 1 2 10 3 (mkDb [sold_out_keyboard] [] [] [] []))).(cart) =
    [mkCartRow 1 2 10 0] /\
  set_cart_qty_if_in_stock 1 2 10 0 db_one_row =
    (Ok true, set_cart db_one_row [mkCartRow 1 2 10 0]) /\
  (snd (update_cart_qty 1 2 10 0 db_one_row)).(cart) = [].
Proof. repeat split; reflexivity. Qed.

(** Witness for C10: product 99 is not in the catalog of [db_two_rows]. *)
Lemma add_to_cart_absent_product_noop_witness :
  find_product 99 db_two_rows.(products) = None /\
  add_to_cart 1 9 99 4 db_two_rows = (Ok tt, db_two_rows).
Proof.
  split; [reflexivity|].
  apply add_to_cart_absent_product_noop. reflexivity.
Defined.

(** *** C1 *)

Lemma pick_ono_fresh draws os ono :
  pick_ono draws os = Some ono -> ~ In ono (map o_ono os) /\ In ono draws.
Proof.
  induction draws as [|x draws IH]; simpl; [discriminate|].
  case_eq (existsb (fun o => o.(o_ono) =? x) os); intros He.
  - intros H. destruct (IH H). split; auto.
  - intros H. injection H as Hx. subst ono. split; [|now left].
    intros Hin. apply in_map_iff in Hin as [o [Ho Hin]].
    assert (existsb (fun o => o.(o_ono) =? x) os = true) as Ht
      by (apply existsb_exists; exists o; split; [exact Hin | now apply Z.eqb_eq]).
    congruence.
Qed.

Lemma find_product_decrement p' p u ps :
  p' <> p -> find_product p' (decrement_rows p u ps) = find_product p' ps.
Proof.
  intros Hne. unfold find_product, decrement_rows.
  induction ps as [|pr ps IH]; simpl; [reflexivity|].
  destruct (Z.eqb_spec (pid pr) p) as [Hp|Hp]; simpl.
  - destruct (Z.eqb_spec (pid pr) p') as [Hp'|Hp']; [congruence|]. exact IH.
  - now rewrite IH.
Qed.

Lemma committed_lines_ext ps1 ps2 rows :
  (forall x, In x (map fst rows) -> find_product x ps1 = find_product x ps2) ->
  committed_lines ps1 rows = committed_lines ps2 rows.
Proof.
  induction rows as [|[p q] rows IH]; intros H; simpl; [reflexivity|].
  rewrite (H p) by now left. rewrite IH by (intros x Hx; apply H; now right).
  reflexivity.
Qed.

Lemma committed_for_notin ps rows p :
  ~ In p (map fst rows) -> committed_for (committed_lines ps rows) p = 0.
Proof.
  induction rows as [|[p' q] rows IH]; intros Hn; simpl; [reflexivity|].
  simpl in Hn. unfold commit_line.
  destruct (find_product p' ps) as [pr|]; [|apply IH; tauto].
  destruct (Z.min q (stock_count pr) <=? 0); [apply IH; tauto|].
  simpl. destruct (Z.eqb_spec p' p); [subst; tauto|]. apply IH; tauto.
Qed.

Lemma after_checkout_stock_nil ps : after_checkout_stock [] ps = ps.
Proof.
  unfold after_checkout_stock. rewrite <- (map_id ps) at 2. apply map_ext.
  intros []. unfold with_stock; simpl. now rewrite Z.sub_0_r.
Qed.

Lemma after_checkout_stock_cons p u pr0 cs ps :
  committed_for cs p = 0 ->
  after_checkout_stock cs (decrement_rows p u ps) =
  after_checkout_stock ((p, u, pr0) :: cs) ps.
Proof.
  intros H0. unfold after_checkout_stock, decrement_rows. rewrite map_map.
  apply map_ext. intros pr. simpl.
  destruct (Z.eqb_spec (pid pr) p) as [Hp|Hp]; simpl.
  - rewrite Hp, Z.eqb_refl, H0. unfold with_stock; simpl. f_equal. lia.
  - destruct (Z.eqb_spec p (pid pr)); [congruence|]. reflexivity.
Qed.

Lemma checkout_lines_eq ono ln rows d :
  NoDup (map fst rows) ->
  checkout_lines ono ln rows d =
  (Ok tt, mkDb (after_checkout_stock (committed_lines d.(products) rows) d.(products))
               d.(cart) d.(orders)
               (d.(orderlines) ++ number_lines ono ln (committed_lines d.(products) rows))
               d.(search)).
Proof.
  revert ln d. induction rows as [|[p q] rows IH]; intros ln d Hnd.
  - simpl. rewrite after_checkout_stock_nil, app_nil_r. now destruct d.
  - simpl in Hnd. apply NoDup_cons_iff in Hnd as [Hp Hnd].
    cbn [checkout_lines committed_lines]. unfold bind at 1, select_price_stock.
    unfold commit_line.
    destruct (find_product p (products d)) as [pr|] eqn:Hf; simpl;
      [|now apply IH].
    destruct (Z.min q (stock_count pr) <=? 0); [now apply IH|].
    unfold bind, insert_orderline, decrement_stock. simpl.
    rewrite IH by exact Hnd. simpl.
    rewrite (committed_lines_ext (decrement_rows p (Z.min q (stock_count pr)) (products d))
               (products d)).
    2:{ intros x Hx. apply find_product_decrement. intros ->. contradiction. }
    rewrite (after_checkout_stock_cons _ _ (price pr)) by (now apply committed_for_notin).
    now rewrite <- app_assoc.
Qed.

Lemma group_cart_nodup cid cs : NoDup (map fst (group_cart cid cs)).
Proof.
  unfold group_cart. rewrite map_map. simpl. rewrite map_id. apply NoDup_nodup.
Qed.

Lemma number_lines_lineNo ono n cs :
  map l_lineNo (number_lines ono n cs) =
  map (fun i => n + Z.of_nat i) (seq 0 (List.length cs)).
Proof.
  revert n. induction cs as [|[[p q] pr] cs IH]; intros n; simpl; [reflexivity|].
  rewrite IH, <- seq_shift, map_map. f_equal; [lia|].
  apply map_ext. intros i. lia.
Qed.

Lemma filter_cid_cleared cid cs :
  filter (fun r => r.(c_cid) =? cid) (filter (fun r => negb (r.(c_cid) =? cid)) cs) = [].
Proof.
  induction cs as [|r cs IH]; simpl; [reflexivity|].
  destruct (c_cid r =? cid) eqn:E; simpl; [exact IH|]. now rewrite E.
Qed.

Lemma checkout_eq draws d cid s addr odate ono :
  pick_ono draws d.(orders) = Some ono ->
  checkout draws cid s addr odate d =
  (Ok ono,
   mkDb (after_checkout_stock (committed_lines d.(products) (group_cart cid d.(cart)))
                              d.(products))
        (filter (fun r => negb (r.(c_cid) =? cid)) d.(cart))
        (d.(orders) ++ [mkOrder ono cid s odate addr])
        (d.(orderlines) ++
           number_lines ono 1 (committed_lines d.(products) (group_cart cid d.(cart))))
        d.(search)).
Proof.
  intros H. unfold checkout, bind at 1, select_grouped_cart.
  unfold bind at 1, select_fresh_ono. rewrite H.
  unfold bind at 1, insert_order. unfold bind at 1.
  rewrite checkout_lines_eq by apply group_cart_nodup. simpl. reflexivity.
Qed.

(** C1: when the order-number loop exits with [ono] (it exits only on a
    number no existing order has), Checkout returns [ono] and
    - appends exactly one order header [(ono, cid, sessionNo, odate,
      shipping_address)], also when the cart is empty (then no line is added);
    - appends the order lines [number_lines ono 1 C], where [C] is
      [committed_lines] of the grouped cart against the catalog as it was:
      lines of missing products and lines with [min(cartQty, stock) <= 0]
      are dropped, the others carry [committedQty = min(cartQty, stock)] and
      the product's price, numbered [1, 2, ...] in the grouped order;
    - lowers each product's stock by exactly its committed quantity;
    - deletes every cart row of [cid] and no other, so [list_cart] is empty. *)
Theorem checkout_contract draws d cid s addr odate ono :
  pick_ono draws d.(orders) = Some ono ->
  let C := committed_lines d.(products) (group_cart cid d.(cart)) in
  let d' := snd (checkout draws cid s addr odate d) in
  fst (checkout draws cid s addr odate d) = Ok ono /\
  ~ In ono (map o_ono d.(orders)) /\
  d'.(orders) = d.(orders) ++ [mkOrder ono cid s odate addr] /\
  d'.(orderlines) = d.(orderlines) ++ number_lines ono 1 C /\
  map l_lineNo (number_lines ono 1 C) =
    map (fun i => 1 + Z.of_nat i) (seq 0 (List.length C)) /\
  (filter (fun r => r.(c_cid) =? cid) d.(cart) = [] -> d'.(orderlines) = d.(orderlines)) /\
  d'.(products) = after_checkout_stock C d.(products) /\
  fst (list_cart cid s d') = Ok [] /\
  d'.(cart) = filter (fun r => negb (r.(c_cid) =? cid)) d.(cart) /\
  d'.(search) = d.(search).
Proof.
  intros H C d'. subst C d'. rewrite (checkout_eq _ _ _ _ _ _ _ H). simpl.
  repeat split.
  - now apply pick_ono_fresh in H.
  - apply number_lines_lineNo.
  - intros He. unfold group_cart. simpl. rewrite He. simpl. apply app_nil_r.
  - unfold list_cart, group_cart. simpl. now rewrite filter_cid_cleared.
Qed.

(** A cart of customer 1 over three products: 10 is in stock, 11 is sold
    out, 12 no longer exists; product 10 has rows from two sessions. *)
Definition sold_out_mouse : product :=
  mkProduct 11 "mouse" "peripherals" 1999 0 "wireless mouse".

Definition db_checkout : db :=
  mkDb [keyboard; sold_out_mouse]
       [mkCartRow 1 7 11 1; mkCartRow 1 7 10 2; mkCartRow 1 8 12 1;
        mkCartRow 1 8 10 4; mkCartRow 2 3 10 1]
       [mkOrder 500000 2 3 20240101 "elsewhere"] [] [].

(** Witness for C1, at the cart above: the first draw collides with the
    existing order 500000, the second is fresh. *)
Lemma checkout_contract_witness :
  pick_ono [500000; 123456] db_checkout.(orders) = Some 123456 /\
  (let C := committed_lines db_checkout.(products) (group_cart 1 db_checkout.(cart)) in
   let d' := snd (checkout [500000; 123456] 1 9 "1 Main St" 20250101 db_checkout) in
   fst (checkout [500000; 123456] 1 9 "1 Main St" 20250101 db_checkout) = Ok 123456 /\
   ~ In 123456 (map o_ono db_checkout.(orders)) /\
   d'.(orders) = db_checkout.(orders) ++ [mkOrder 123456 1 9 20250101 "1 Main St"] /\
   d'.(orderlines) = db_checkout.(orderlines) ++ number_lines 123456 1 C /\
   map l_lineNo (number_lines 123456 1 C) =
     map (fun i => 1 + Z.of_nat i) (seq 0 (List.length C)) /\
   (filter (fun r => r.(c_cid) =? 1) db_checkout.(cart) = [] ->
      d'.(orderlines) = db_checkout.(orderlines)) /\
   d'.(products) = after_checkout_stock C db_checkout.(products) /\
   fst (list_cart 1 9 d') = Ok [] /\
   d'.(cart) = filter (fun r => negb (r.(c_cid) =? 1)) db_checkout.(cart) /\
   d'.(search) = db_checkout.(search)).
Proof.
  split; [reflexivity|]. apply checkout_contract. reflexivity.
Defined.

(** The same checkout evaluated: one line for product 10 with quantity
    [min(6, 5) = 5] at its price, stock 10 down to 0, the other customer's
    row kept. *)
Example checkout_run :
  checkout [500000; 123456] 1 9 "1 Main St" 20250101 db_checkout =
  (Ok 123456,
   mkDb [with_stock keyboard 0; sold_out_mouse] [mkCartRow 2 3 10 1]
        [mkOrder 500000 2 3 20240101 "elsewhere"; mkOrder 123456 1 9 20250101 "1 Main St"]
        [mkOrderLine 123456 1 10 5 4999] []).
Proof. vm_compute. reflexivity. Qed.

(** ** Lemmas on text *)

Ltac ascii_cases c :=
  destruct c as [b0 b1 b2 b3 b4 b5 b6 b7];
  destruct b0, b1, b2, b3, b4, b5, b6, b7; reflexivity.

Lemma lower_ascii_idem c : lower_ascii (lower_ascii c) = lower_ascii c.
Proof. ascii_cases c. Qed.

Lemma is_space_lower c : is_space (lower_ascii c) = is_space c.
Proof. ascii_cases c. Qed.

Lemma ascii_ci_eq_lower a b : ascii_ci_eq a (lower_ascii b) = ascii_ci_eq a b.
Proof. unfold ascii_ci_eq. now rewrite lower_ascii_idem. Qed.

Definition no_wildcard (t : chars) : bool :=
  forallb (fun c => negb (Ascii.eqb c "%"%char) && negb (Ascii.eqb c "_"%char)) t.

Lemma like_pct p s :
  like ("%"%char :: p) s =
  like p s || match s with [] => false | _ :: s' => like ("%"%char :: p) s' end.
Proof. destruct s; reflexivity. Qed.

Lemma like_pct_only s : like ["%"%char] s = true.
Proof.
  induction s as [|x s IH]; [reflexivity|].
  rewrite like_pct, IH. apply orb_true_r.
Qed.

Lemma like_prefix t s :
  no_wildcard t = true -> like (t ++ ["%"%char]) s = prefix_ci t s.
Proof.
  revert s. induction t as [|c t IH]; intros s Ht; simpl.
  - apply like_pct_only.
  - simpl in Ht. apply andb_true_iff in Ht as [Hc Ht].
    apply andb_true_iff in Hc as [H1 H2]. apply negb_true_iff in H1, H2.
    rewrite H1. destruct s as [|x s]; [reflexivity|].
    rewrite H2. simpl. now rewrite IH.
Qed.

Lemma like_substring t s :
  no_wildcard t = true -> like ("%"%char :: t ++ ["%"%char]) s = substring_ci t s.
Proof.
  intros Ht. induction s as [|x s IH].
  - rewrite like_pct, like_prefix by exact Ht. simpl. now rewrite orb_false_r.
  - rewrite like_pct, like_prefix, IH by exact Ht. reflexivity.
Qed.

Lemma prefix_ci_lower t s : prefix_ci t (lower s) = prefix_ci t s.
Proof.
  revert s. induction t as [|a t IH]; intros [|b s]; simpl; try reflexivity.
  now rewrite ascii_ci_eq_lower, IH.
Qed.

Lemma substring_ci_lower t s : substring_ci t (lower s) = substring_ci t s.
Proof.
  induction s as [|b s IH]; [reflexivity|].
  change (substring_ci t (lower (b :: s)))
    with (prefix_ci t (lower (b :: s)) || substring_ci t (lower s)).
  now rewrite IH, prefix_ci_lower.
Qed.

(** On a term without [%] and [_], the [LIKE] of the code is the
    case-insensitive substring test of the spec. *)
Lemma name_descr_like_contains t pr :
  no_wildcard t = true -> name_descr_like t pr = name_descr_contains t pr.
Proof.
  intros Ht. unfold name_descr_like, name_descr_contains, like_contains.
  now rewrite !like_substring, !substring_ci_lower by exact Ht.
Qed.

Lemma isdigit_no_wildcard s : isdigit s = true -> no_wildcard s = true.
Proof.
  unfold isdigit, no_wildcard. destruct s as [|c s]; [discriminate|].
  intros H. apply forallb_forall. intros x Hx.
  eapply forallb_forall in H; [|exact Hx]. revert H.
  destruct x as [b0 b1 b2 b3 b4 b5 b6 b7];
    destruct b0, b1, b2, b3, b4, b5, b6, b7; intros H;
    (reflexivity || discriminate).
Qed.

(** *** [str.split] *)

Definition no_space (s : chars) : bool := forallb (fun c => negb (is_space c)) s.

Lemma split_aux_no_space cur s :
  no_space s = true ->
  split_aux cur s = match rev cur ++ s with [] => [] | l => [l] end.
Proof.
  revert cur. induction s as [|c s IH]; intros cur Hs; simpl.
  - rewrite app_nil_r. destruct cur as [|x cur]; [reflexivity|].
    simpl. destruct (rev cur ++ [x]) eqn:E; [|reflexivity].
    apply (f_equal (@List.length _)) in E. rewrite length_app in E. simpl in E. lia.
  - simpl in Hs. apply andb_true_iff in Hs as [Hc Hs]. apply negb_true_iff in Hc.
    rewrite Hc, IH by exact Hs. simpl. rewrite <- app_assoc. simpl.
    destruct (rev cur ++ c :: s) eqn:E; [|reflexivity].
    destruct (rev cur); discriminate.
Qed.

Lemma split_aux_words_no_space cur s w :
  no_space cur = true -> In w (split_aux cur s) -> no_space w = true.
Proof.
  revert cur. induction s as [|c s IH]; intros cur Hcur Hin; simpl in Hin.
  - destruct cur as [|x cur']; [contradiction|]. destruct Hin as [<-|[]].
    unfold no_space in *. rewrite forallb_forall in *. intros y Hy.
    apply Hcur. now apply in_rev.
  - destruct (is_space c) eqn:Hc.
    + destruct cur as [|x cur']; [now apply (IH [])|].
      destruct Hin as [<-|Hin]; [|now apply (IH [])].
      unfold no_space in *. rewrite forallb_forall in *. intros y Hy.
      apply Hcur. now apply in_rev.
    + apply (IH (c :: cur)); [|exact Hin]. simpl. now rewrite Hc.
Qed.

Lemma split_aux_at_space cur x sp y :
  no_space x = true -> is_space sp = true ->
  split_aux cur (x ++ sp :: y) =
  match rev cur ++ x with [] => [] | l => [l] end ++ split_aux [] y.
Proof.
  revert cur. induction x as [|c x IH]; intros cur Hx Hsp; simpl.
  - rewrite Hsp, app_nil_r. destruct cur as [|a cur]; [reflexivity|].
    simpl. destruct (rev cur ++ [a]) eqn:E; [destruct (rev cur); discriminate|].
    reflexivity.
  - simpl in Hx. apply andb_true_iff in Hx as [Hc Hx]. apply negb_true_iff in Hc.
    rewrite Hc, IH by assumption. simpl. rewrite <- app_assoc. reflexivity.
Qed.

Lemma split_aux_nonempty cur y :
  (cur <> [] \/ existsb (fun c => negb (is_space c)) y = true) -> split_aux cur y <> [].
Proof.
  revert cur. induction y as [|c y IH]; intros cur H; simpl.
  - destruct H as [H|H]; [destruct cur; [contradiction|congruence]|discriminate].
  - simpl in H. destruct (is_space c) eqn:Hc.
    + destruct cur as [|a cur]; [|congruence].
      apply IH. destruct H as [H|H]; [contradiction|]. now right.
    + apply IH. left. congruence.
Qed.

Lemma first_space s :
  no_space s = false ->
  exists x sp y, s = x ++ sp :: y /\ no_space x = true /\ is_space sp = true.
Proof.
  induction s as [|c s IH]; simpl; [discriminate|].
  destruct (is_space c) eqn:Hc; simpl; intros H.
  - now exists [], c, s.
  - destruct (IH H) as (x & sp & y & -> & Hx & Hsp).
    exists (c :: x), sp, y. simpl. now rewrite Hc, Hx.
Qed.

(** A phrase split in two or more words holds a space; the words hold none. *)
Lemma split_many_not_word s w :
  (1 < List.length (py_split s))%nat -> In w (py_split s) -> w <> s.
Proof.
  intros Hlen Hin ->. unfold py_split in *.
  assert (no_space s = true) as Hs
    by (apply (split_aux_words_no_space [] s s); [reflexivity|exact Hin]).
  rewrite split_aux_no_space in Hlen by exact Hs. simpl in Hlen.
  destruct s; simpl in Hlen; lia.
Qed.

(** *** [str.strip] *)

Definition head_ok (s : chars) : Prop :=
  match s with c :: _ => is_space c = false | [] => True end.

Lemma strip_left_head l : head_ok (strip_left l).
Proof.
  induction l as [|c l IH]; simpl; [exact I|].
  destruct (is_space c) eqn:Hc; [exact IH|exact Hc].
Qed.

Lemma strip_left_app l m :
  strip_left (l ++ m) = match strip_left l with [] => strip_left m | u => u ++ m end.
Proof.
  induction l as [|c l IH]; simpl; [reflexivity|].
  destruct (is_space c); [exact IH|reflexivity].
Qed.

Lemma strip_edges s : head_ok (strip s) /\ head_ok (rev (strip s)).
Proof.
  unfold strip. split; [|rewrite rev_involutive; apply strip_left_head].
  pose proof (strip_left_head s) as Hh.
  destruct (strip_left s) as [|c t]; [exact I|]. simpl in Hh |- *.
  rewrite strip_left_app. simpl. rewrite Hh.
  destruct (strip_left (rev t)); simpl; [exact Hh|].
  rewrite rev_app_distr. exact Hh.
Qed.

Lemma head_ok_lower s : head_ok s -> head_ok (lower s).
Proof. destruct s as [|c s]; simpl; [auto|]. now rewrite is_space_lower. Qed.

Lemma normalize_edges q :
  head_ok (normalize q) /\ head_ok (rev (normalize q)).
Proof.
  unfold normalize. destruct (strip_edges (list_ascii_of_string q)) as [H1 H2].
  split; [now apply head_ok_lower|].
  unfold lower. rewrite <- map_rev. now apply head_ok_lower.
Qed.

(** A trimmed phrase that splits into one word is that word. *)
Lemma split_single s :
  head_ok s -> head_ok (rev s) -> List.length (py_split s) = 1%nat -> py_split s = [s].
Proof.
  intros Hh Ht Hlen. unfold py_split in *.
  destruct (no_space s) eqn:Hs.
  - rewrite split_aux_no_space in * by exact Hs. simpl in *.
    destruct s; [discriminate|reflexivity].
  - exfalso. destruct (first_space s Hs) as (x & sp & y & -> & Hx & Hsp).
    rewrite split_aux_at_space in Hlen by assumption. simpl in Hlen.
    destruct x as [|a x]; [simpl in Hh; congruence|].
    destruct y as [|b y].
    + rewrite rev_app_distr in Ht. simpl in Ht. congruence.
    + assert (existsb (fun c => negb (is_space c)) (b :: y) = true) as Hne.
      { rewrite rev_app_distr in Ht. simpl in Ht.
        destruct (rev y ++ [b]) as [|c r] eqn:E.
        - destruct (rev y); discriminate.
        - apply existsb_exists. exists c. split; [|now rewrite Ht].
          apply in_rev. rewrite <- (rev_involutive y) in *. simpl.
          rewrite rev_involutive in E |- *. rewrite E. now left. }
      pose proof (split_aux_nonempty [] (b :: y) (or_intror Hne)) as Hn.
      destruct (split_aux [] (b :: y)); [contradiction|].
      simpl in Hlen. lia.
Qed.

(** ** Lemmas on the products table and on [add_rows] *)

Lemma pid_sorted_strong ps :
  pid_sorted ps -> StronglySorted (fun a b => a.(pid) < b.(pid)) ps.
Proof.
  apply Sorted_StronglySorted. intros a b c; lia.
Qed.

Lemma strongly_sorted_filter {A} (R : A -> A -> Prop) f l :
  StronglySorted R l -> StronglySorted R (filter f l).
Proof.
  induction 1 as [|a l Hl IH Hall]; simpl; [constructor|].
  destruct (f a); [|exact IH]. constructor; [exact IH|].
  apply Forall_forall. intros x Hx. apply filter_In in Hx as [Hx _].
  eapply Forall_forall in Hall; eauto.
Qed.

Lemma pid_sorted_filter f ps : pid_sorted ps -> pid_sorted (filter f ps).
Proof.
  intros H. apply StronglySorted_Sorted, strongly_sorted_filter, pid_sorted_strong, H.
Qed.

Lemma pid_sorted_nodup ps : pid_sorted ps -> NoDup (map pid ps).
Proof.
  intros H. apply pid_sorted_strong in H.
  induction H as [|a l Hl IH Hall]; simpl; constructor; [|exact IH].
  intros Hin. apply in_map_iff in Hin as [b [Hb Hin]].
  eapply Forall_forall in Hall; [|exact Hin]. lia.
Qed.

Lemma filter_all_false {A} (f : A -> bool) l :
  (forall x, In x l -> f x = false) -> filter f l = [].
Proof.
  induction l as [|a l IH]; intros H; simpl; [reflexivity|].
  rewrite H by now left. apply IH. intros x Hx. apply H. now right.
Qed.

Lemma filter_pid_found ps n pr :
  pid_sorted ps -> find_product n ps = Some pr ->
  filter (fun r => r.(pid) =? n) ps = [pr].
Proof.
  intros H. apply pid_sorted_strong in H. unfold find_product.
  induction H as [|a l Hl IH Hall]; simpl; [discriminate|].
  destruct (Z.eqb_spec (pid a) n) as [Ha|Ha]; [|exact IH].
  intros E. injection E as <-. f_equal. apply filter_all_false.
  intros x Hx. eapply Forall_forall in Hall; [|exact Hx]. apply Z.eqb_neq. lia.
Qed.

Lemma filter_pid_none ps n :
  find_product n ps = None -> filter (fun r => r.(pid) =? n) ps = [].
Proof.
  unfold find_product. intros H. apply filter_all_false. intros x Hx.
  now apply (find_none _ _ H).
Qed.

Lemma filter_filter' {A} (f g : A -> bool) l :
  filter f (filter g l) = filter (fun x => g x && f x) l.
Proof.
  induction l as [|a l IH]; simpl; [reflexivity|].
  destruct (g a); simpl; [destruct (f a)|]; now rewrite ?IH.
Qed.

Lemma mem_Z_In x l : mem_Z x l = true <-> In x l.
Proof.
  unfold mem_Z. rewrite existsb_exists. split.
  - intros [y [Hy E]]. apply Z.eqb_eq in E. now subst.
  - intros H. exists x. split; [exact H|apply Z.eqb_refl].
Qed.

Lemma mem_Z_app x l1 l2 : mem_Z x (l1 ++ l2) = mem_Z x l1 || mem_Z x l2.
Proof. unfold mem_Z. apply existsb_app. Qed.

(** [add_rows] appends the rows whose pid is not in [results] yet, and
    keeps [seen] equal, as a set, to the pids of [results]. *)
Lemma add_rows_spec rows res seen :
  (forall x, mem_Z x seen = mem_Z x (map pid res)) ->
  NoDup (map pid rows) ->
  fst (add_rows (res, seen) rows) =
    res ++ filter (fun r => negb (mem_Z r.(pid) (map pid res))) rows /\
  (forall x, mem_Z x (snd (add_rows (res, seen) rows)) =
             mem_Z x (map pid (fst (add_rows (res, seen) rows)))).
Proof.
  revert res seen. induction rows as [|r rows IH]; intros res seen Hseen Hnd.
  - simpl. now rewrite app_nil_r.
  - simpl in Hnd. apply NoDup_cons_iff in Hnd as [Hr Hnd]. simpl.
    rewrite Hseen. destruct (mem_Z (pid r) (map pid res)) eqn:Hm; simpl.
    + now apply IH.
    + destruct (IH (res ++ [r]) (pid r :: seen)) as [H1 H2]; [|exact Hnd|].
      { intros x. rewrite map_app, mem_Z_app, <- Hseen. simpl.
        unfold mem_Z; simpl. now rewrite orb_false_r, orb_comm. }
      split; [|exact H2]. rewrite H1, <- app_assoc. simpl. f_equal. f_equal.
      apply filter_ext_in. intros x Hx.
      rewrite map_app, mem_Z_app. simpl. unfold mem_Z at 2. simpl.
      destruct (Z.eqb_spec (pid x) (pid r)) as [E|E]; [|now rewrite orb_false_r].
      exfalso. apply Hr. rewrite <- E. now apply in_map.
Qed.

Lemma nodup_map_filter f ps : NoDup (map pid ps) -> NoDup (map pid (filter f ps)).
Proof.
  induction ps as [|a ps IH]; simpl; intros H; [constructor|].
  apply NoDup_cons_iff in H as [Ha H]. destruct (f a); simpl; [|now apply IH].
  constructor; [|now apply IH]. intros Hin. apply Ha.
  apply in_map_iff in Hin as [b [Hb Hin]]. apply filter_In in Hin as [Hin _].
  rewrite <- Hb. now apply in_map.
Qed.

Lemma mem_chars_In w l : mem_chars w l = true <-> In w l.
Proof.
  unfold mem_chars. rewrite existsb_exists. split.
  - intros [v [Hv E]]. destruct (list_eq_dec ascii_dec w v); [now subst|discriminate].
  - intros H. exists w. split; [exact H|]. now destruct (list_eq_dec ascii_dec w w).
Qed.

Lemma unique_words_spec seen ws :
  NoDup (unique_words seen ws) /\
  (forall w, In w (unique_words seen ws) <-> In w ws /\ ~ In w seen).
Proof.
  revert seen. induction ws as [|w ws IH]; intros seen; simpl.
  - split; [constructor|]. tauto.
  - destruct (mem_chars w seen) eqn:Hm.
    + apply mem_chars_In in Hm. destruct (IH seen) as [H1 H2]. split; [exact H1|].
      intros v. rewrite H2. split; [tauto|]. intros [[<-|Hv] Hn]; [contradiction|tauto].
    + destruct (IH (w :: seen)) as [H1 H2]. split.
      * constructor; [|exact H1]. rewrite H2. simpl. tauto.
      * intros v. simpl. rewrite H2. simpl.
        assert (~ In w seen) by (intros Hi; apply mem_chars_In in Hi; congruence).
        split; [intros [<-|[Hv Hn]]; split; tauto|]. intros [[<-|Hv] Hn]; [now left|].
        destruct (list_eq_dec ascii_dec w v); [now left|right; tauto].
Qed.

Lemma unique_words_seen_ext s1 s2 ws :
  (forall w, In w ws -> mem_chars w s1 = mem_chars w s2) ->
  unique_words s1 ws = unique_words s2 ws.
Proof.
  revert s1 s2. induction ws as [|w ws IH]; intros s1 s2 H; simpl; [reflexivity|].
  rewrite (H w) by now left. destruct (mem_chars w s2).
  - apply IH. intros v Hv. apply H. now right.
  - f_equal. apply IH. intros v Hv. unfold mem_chars. simpl.
    f_equal. apply H. now right.
Qed.

(** The admin word loop, on a table with distinct pids. *)
Lemma word_stages_spec ws sw res seen d :
  (forall x, mem_Z x seen = mem_Z x (map pid res)) ->
  NoDup (map pid d.(products)) ->
  exists acc,
    word_stages sw ws (res, seen) d = (Ok acc, d) /\
    fst acc = fold_left (fun acc t =>
                acc ++ filter (fun pr => name_descr_like t pr &&
                                         negb (mem_Z pr.(pid) (map pid acc))) d.(products))
                (unique_words sw ws) res /\
    (forall x, mem_Z x (snd acc) = mem_Z x (map pid (fst acc))).
Proof.
  revert sw res seen. induction ws as [|w ws IH]; intros sw res seen Hseen Hnd.
  - exists (res, seen). simpl. auto.
  - simpl. destruct (mem_chars w sw); [now apply IH|].
    unfold bind at 1, select_like.
    destruct (add_rows_spec (filter (name_descr_like w) d.(products)) res seen Hseen)
      as [H1 H2]; [now apply nodup_map_filter|].
    destruct (add_rows (res, seen) (filter (name_descr_like w) (products d)))
      as [res' seen'] eqn:E. simpl in H1, H2.
    destruct (IH (w :: sw) res' seen' H2 Hnd) as [acc [Hr [Hf Hs]]].
    exists acc. split; [exact Hr|]. split; [|exact Hs].
    rewrite Hf. simpl. rewrite H1, filter_filter'. reflexivity.
Qed.

Lemma word_stages_state ws sw acc d :
  exists acc', word_stages sw ws acc d = (Ok acc', d).
Proof.
  revert sw acc. induction ws as [|w ws IH]; intros sw acc; simpl; [exists acc; reflexivity|].
  destruct (mem_chars w sw); [apply IH|]. apply IH.
Qed.

Lemma no_space_isdigit s : no_space s = false -> isdigit s = false.
Proof.
  unfold isdigit, no_space. destruct s as [|c s]; [reflexivity|]. intros H.
  apply not_true_iff_false. intros Hd. apply not_true_iff_false in H. apply H.
  apply forallb_forall. intros x Hx. eapply forallb_forall in Hd; [|exact Hx].
  revert Hd. destruct x as [b0 b1 b2 b3 b4 b5 b6 b7];
    destruct b0, b1, b2, b3, b4, b5, b6, b7; intros Hd;
    (reflexivity || discriminate).
Qed.

Lemma split_many_has_space s :
  (1 < List.length (py_split s))%nat -> no_space s = false.
Proof.
  intros H. destruct (no_space s) eqn:Hs; [|reflexivity]. exfalso.
  unfold py_split in H. rewrite split_aux_no_space in H by exact Hs.
  simpl in H. destruct s; simpl in H; lia.
Qed.

(** *** C6 *)

(** C6: AdminSearch ([mixed_product_search_sales]) over a table keyed by
    pid: an empty trimmed query returns all products in pid order; a query
    of digits returns the product with that pid alone when there is one,
    and otherwise the pid-ordered products whose name or descr contains the
    digit string (case-insensitively). *)
Theorem admin_search_empty_and_digits q d :
  pid_sorted d.(products) ->
  let phrase := normalize q in
  (phrase = [] -> mixed_product_search_sales q d = (Ok d.(products), d)) /\
  (isdigit phrase = true -> forall pr,
     find_product (digits_value phrase) d.(products) = Some pr ->
     mixed_product_search_sales q d = (Ok [pr], d)) /\
  (isdigit phrase = true ->
     find_product (digits_value phrase) d.(products) = None ->
     mixed_product_search_sales q d =
       (Ok (filter (name_descr_contains phrase) d.(products)), d) /\
     pid_sorted (filter (name_descr_contains phrase) d.(products))).
Proof.
  intros Hs phrase. subst phrase. unfold mixed_product_search_sales. cbv zeta.
  destruct (normalize q) as [|c t] eqn:E.
  - split; [reflexivity|]. split; discriminate.
  - split; [discriminate|]. rewrite <- E.
    split; intros Hd; rewrite Hd; unfold bind at 1, select_pid.
    + intros pr Hf. rewrite (filter_pid_found _ _ _ Hs Hf). reflexivity.
    + intros Hf. rewrite (filter_pid_none _ _ Hf). simpl.
      unfold bind, select_like, ret.
      destruct (add_rows_spec (filter (name_descr_like (normalize q)) d.(products)) [] []) 
        as [H1 _]; [reflexivity|apply nodup_map_filter, pid_sorted_nodup, Hs|].
      rewrite H1. simpl.
      assert (filter (fun _ => true) (filter (name_descr_like (normalize q)) d.(products))
              = filter (name_descr_contains (normalize q)) d.(products)) as ->.
      { rewrite filter_filter'. apply filter_ext. intros pr.
        rewrite andb_true_r. apply name_descr_like_contains, isdigit_no_wildcard, Hd. }
      split; [reflexivity|]. now apply pid_sorted_filter.
Qed.

Lemma filter_true {A} (l : list A) : filter (fun _ => true) l = l.
Proof. induction l as [|a l IH]; simpl; [reflexivity|]. now rewrite IH. Qed.

Lemma staged_search_nodup m phrase tokens ps :
  NoDup (map pid ps) -> NoDup (map pid (staged_search m phrase tokens ps)).
Proof.
  intros Hps. unfold staged_search.
  assert (forall acc, NoDup (map pid acc) ->
          NoDup (map pid (fold_left (fun acc t =>
             acc ++ filter (fun pr => m t pr && negb (mem_Z pr.(pid) (map pid acc))) ps)
             tokens acc))) as Hf.
  { induction tokens as [|t tokens IH]; intros acc Hacc; simpl; [exact Hacc|].
    apply IH. rewrite map_app. apply NoDup_app; [exact Hacc|now apply nodup_map_filter|].
    intros a Ha Hin. apply in_map_iff in Hin as [pr [<- Hin]].
    apply filter_In in Hin as [_ Hin]. apply andb_true_iff in Hin as [_ Hin].
    apply negb_true_iff, not_true_iff_false in Hin. apply Hin. now apply mem_Z_In. }
  apply Hf. now apply nodup_map_filter.
Qed.

(** *** C7 *)

(** C7 (as the code does it): on a query of two or more words over a table
    keyed by pid, AdminSearch returns the staged result: the products whose
    name or descr matches [LIKE '%phrase%'], in pid order, then for each
    distinct word in first-occurrence order those matching [LIKE '%word%']
    not emitted yet, in pid order.  No pid occurs twice.  ([%] and [_] in
    the query are [LIKE] wildcards.) *)
Theorem admin_search_multi_token q d :
  pid_sorted d.(products) ->
  (1 < List.length (py_split (normalize q)))%nat ->
  let phrase := normalize q in
  let tokens := unique_words [] (py_split phrase) in
  mixed_product_search_sales q d =
    (Ok (staged_search name_descr_like phrase tokens d.(products)), d) /\
  NoDup (map pid (staged_search name_descr_like phrase tokens d.(products))) /\
  NoDup tokens /\
  (forall w, In w tokens <-> In w (py_split phrase)).
Proof.
  intros Hs Hlen. cbv zeta.
  assert (Hnd : NoDup (map pid d.(products))) by now apply pid_sorted_nodup.
  destruct (unique_words_spec [] (py_split (normalize q))) as [Hu1 Hu2].
  split; [|split; [now apply staged_search_nodup|split; [exact Hu1|]]].
  2:{ intros w. rewrite Hu2. simpl. tauto. }
  assert (Hsp : no_space (normalize q) = false) by now apply split_many_has_space.
  unfold mixed_product_search_sales. cbv zeta.
  destruct (normalize q) as [|c t] eqn:E; [discriminate|]. rewrite <- E in *.
  rewrite (no_space_isdigit _ Hsp).
  replace (1 <? Z.of_nat (List.length (py_split (normalize q)))) with true
    by (symmetry; apply Z.ltb_lt; lia).
  unfold bind at 1, select_like.
  destruct (add_rows_spec (filter (name_descr_like (normalize q)) d.(products)) [] [])
    as [H1 H2]; [reflexivity|now apply nodup_map_filter|].
  destruct (add_rows ([], []) (filter (name_descr_like (normalize q)) (products d)))
    as [res seen] eqn:Ea. simpl in H1, H2.
  rewrite filter_true in H1. subst res.
  destruct (word_stages_spec (py_split (normalize q)) []
              (filter (name_descr_like (normalize q)) d.(products)) seen d H2 Hnd)
    as [acc [Hr [Hf _]]].
  unfold bind. rewrite Hr. unfold ret. rewrite Hf. reflexivity.
Qed.

(** C7 counterexample: with the LIKE wildcard [_], AdminSearch("k_y x")
    returns the keyboard, whose name and descr contain neither the phrase
    "k_y x" nor the token "k_y" nor the token "x"; the staged substring
    search of the claim returns nothing. *)
Lemma admin_search_like_wildcard :
  mixed_product_search_sales "k_y x" db_one_row = (Ok [keyboard], db_one_row) /\
  name_descr_contains (normalize "k_y x") keyboard = false /\
  name_descr_contains (list_ascii_of_string "k_y") keyboard = false /\
  name_descr_contains (list_ascii_of_string "x") keyboard = false /\
  staged_search name_descr_contains (normalize "k_y x")
    (unique_words [] (py_split (normalize "k_y x"))) db_one_row.(products) = [].
Proof. repeat split; vm_compute; reflexivity. Qed.

(** ** Customer search *)

Lemma search_products_eq q cid s when page page_size d :
  search_products q cid s when page page_size d =
  (Ok (limit_offset page_size (Z.max (page - 1) 0 * page_size)
         (filter (where_terms (search_terms (normalize q))) d.(products)),
       Z.of_nat (List.length (filter (where_terms (search_terms (normalize q))) d.(products)))),
   set_search d (d.(search) ++ [mkSearch cid s when q])).
Proof. reflexivity. Qed.

Lemma limit_offset_nil {A} l o : @limit_offset A l o [] = [].
Proof.
  unfold limit_offset. rewrite skipn_nil. destruct (l <? 0); [reflexivity|].
  apply firstn_nil.
Qed.

(** *** C8 *)

(** C8 (as the code does it): CustomerSearch ([search_products]) builds no
    term from an empty query (total 0, empty page), the phrase followed by
    the distinct words in first-occurrence order from a query of several
    words, and the one word itself from a one-word query.  The total is the
    number of products whose name or descr matches [LIKE '%term%'] for some
    term ([%] and [_] act as wildcards), and the page is those products in
    pid order after SQLite's [LIMIT page_size OFFSET max(page-1,0)*page_size]
    (a negative limit sets no bound). *)
Theorem customer_search_contract q cid s when page page_size d :
  let phrase := normalize q in
  let words := py_split phrase in
  let terms := search_terms phrase in
  let matches := filter (where_terms terms) d.(products) in
  (phrase = [] ->
     terms = [] /\ fst (search_products q cid s when page page_size d) = Ok ([], 0)) /\
  ((1 < List.length words)%nat ->
     terms = phrase :: unique_words [] words /\
     NoDup (unique_words [] words) /\
     (forall w, In w (unique_words [] words) <-> In w words)) /\
  (List.length words = 1%nat -> words = [phrase] /\ terms = [phrase]) /\
  fst (search_products q cid s when page page_size d) =
    Ok (limit_offset page_size (Z.max (page - 1) 0 * page_size) matches,
        Z.of_nat (List.length matches)) /\
  (pid_sorted d.(products) -> pid_sorted matches /\ NoDup (map pid matches)).
Proof.
  cbv zeta. rewrite search_products_eq. simpl.
  split; [|split; [|split; [|split; [reflexivity|]]]].
  - intros E. unfold search_terms. rewrite E. split; [reflexivity|].
    rewrite filter_all_false by reflexivity. now rewrite limit_offset_nil.
  - intros Hlen. destruct (unique_words_spec [] (py_split (normalize q))) as [Hu1 Hu2].
    split; [|split; [exact Hu1|intros w; rewrite Hu2; simpl; tauto]].
    unfold search_terms.
    destruct (normalize q) as [|c t] eqn:E; [simpl in Hlen; lia|]. rewrite <- E in *.
    replace (1 <? Z.of_nat (List.length (py_split (normalize q)))) with true
      by (symmetry; apply Z.ltb_lt; lia).
    f_equal. apply unique_words_seen_ext. intros w Hw. unfold mem_chars. simpl.
    destruct (list_eq_dec ascii_dec w (normalize q)); [|reflexivity].
    exfalso. exact (split_many_not_word _ _ Hlen Hw e).
  - intros Hlen. destruct (normalize_edges q) as [Hh Ht].
    pose proof (split_single _ Hh Ht Hlen) as Hw. split; [exact Hw|].
    unfold search_terms. rewrite Hw.
    destruct (normalize q) as [|c t] eqn:E; [discriminate|]. reflexivity.
  - intros Hs. split; [now apply pid_sorted_filter|].
    now apply nodup_map_filter, pid_sorted_nodup.
Qed.

(** C8 counterexample: the claim's substring count and its slice.  The
    query "k_y" matches the keyboard through the wildcard [_], though
    "keyboard" does not contain "k_y"; and with [page = 0] and
    [page_size = -1] the code takes offset 0 where [(page-1)*page_size]
    is 1. *)
Lemma customer_search_like_and_offset :
  fst (search_products "k_y" 1 2 3 1 5 db_one_row) = Ok ([keyboard], 1) /\
  filter (name_descr_contains (list_ascii_of_string "k_y")) db_one_row.(products) = [] /\
  fst (search_products "keyboard" 1 2 3 0 (-1) db_checkout) =
    Ok ([keyboard], 1) /\
  limit_offset (-1) ((0 - 1) * (-1)) [keyboard] = [].
Proof. repeat split; vm_compute; reflexivity. Qed.

(** *** C9 *)

Lemma mixed_product_search_sales_state q d :
  snd (mixed_product_search_sales q d) = d.
Proof.
  unfold mixed_product_search_sales. cbv zeta.
  destruct (normalize q) as [|c t]; [reflexivity|].
  destruct (isdigit (c :: t)).
  - unfold bind, select_pid, select_like, ret. simpl.
    destruct (filter _ _); reflexivity.
  - destruct (1 <? _); [|reflexivity].
    unfold bind, select_like. cbn beta iota.
    match goal with |- context [word_stages ?sw ?ws ?acc ?d] =>
      destruct (word_stages_state ws sw acc d) as [acc' Hacc] end.
    rewrite Hacc. reflexivity.
Qed.

(** C9: every CustomerSearch call, whatever its query (the empty one
    included), appends exactly one row [(cid, sessionNo, when, keyword)] to
    the search log and changes no other table; AdminSearch changes no table,
    for one call or any sequence of calls. *)
Theorem search_audit_log :
  (forall q cid s when page page_size d,
     snd (search_products q cid s when page page_size d) =
       set_search d (d.(search) ++ [mkSearch cid s when q])) /\
  (forall q d, snd (mixed_product_search_sales q d) = d) /\
  (forall qs d, fold_left (fun d q => snd (mixed_product_search_sales q d)) qs d = d).
Proof.
  split; [|split].
  - intros. now rewrite search_products_eq.
  - apply mixed_product_search_sales_state.
  - induction qs as [|q qs IH]; intros d; simpl; [reflexivity|].
    now rewrite mixed_product_search_sales_state.
Qed.

(** Witness for C6, at the catalogue of [db_checkout] (pids 10 and 11): the
    query " 10 " trims to the digit string "10", and pid 10 exists. *)
Lemma admin_search_empty_and_digits_witness :
  pid_sorted db_checkout.(products) /\
  mixed_product_search_sales " 10 " db_checkout = (Ok [keyboard], db_checkout).
Proof.
  assert (Hs : pid_sorted db_checkout.(products)).
  { unfold pid_sorted. simpl. repeat constructor. }
  split; [exact Hs|].
  pose proof (admin_search_empty_and_digits " 10 " db_checkout Hs) as H.
  cbv zeta in H. destruct H as [_ [H _]].
  exact (H eq_refl keyboard eq_refl).
Defined.

(** Witness for C7, at the same catalogue: "mechanical keyboard" has two
    tokens, and the phrase stage finds the keyboard. *)
Lemma admin_search_multi_token_witness :
  pid_sorted db_checkout.(products) /\
  (1 < List.length (py_split (normalize "mechanical keyboard")))%nat /\
  mixed_product_search_sales "mechanical keyboard" db_checkout =
    (Ok [keyboard], db_checkout).
Proof.
  assert (Hs : pid_sorted db_checkout.(products)).
  { unfold pid_sorted. simpl. repeat constructor. }
  assert (Hl : (1 < List.length (py_split (normalize "mechanical keyboard")))%nat).
  { vm_compute. repeat constructor. }
  split; [exact Hs|]. split; [exact Hl|].
  pose proof (admin_search_multi_token "mechanical keyboard" db_checkout Hs Hl) as H.
  cbv zeta in H. destruct H as [H _]. rewrite H. vm_compute. reflexivity.
Defined.

(** * The rest of the product, order and report code of crud.py *)

(** [ORDER BY key] over a table read in table order: an insertion sort
    that puts [x] before [y] when [before x y].  Each [before] below puts
    an earlier row ahead of a later one with the same key, so rows with
    equal keys keep their table order (SQL leaves that order open). *)
Section InsertionSort.
Context {A : Type} (before : A -> A -> bool).

Fixpoint insert_by (x : A) (l : list A) : list A :=
  match l with
  | [] => [x]
  | y :: rest => if before x y then x :: l else y :: insert_by x rest
  end.

Fixpoint sort_by (l : list A) : list A :=
  match l with
  | [] => []
  | x :: rest => insert_by x (sort_by rest)
  end.

End InsertionSort.

(** ** Products (crud.py, lines 445-468 and 833-880) *)

Definition get_product (p : Z) : M (option product) :=
  fun d => (Ok (find_product p d.(products)), d).

Definition product_exists (p : Z) : M bool :=
  fun d => (Ok (match find_product p d.(products) with Some _ => true | None => false end), d).

(** [int(row[0]) if row else None] *)
Definition product_stock (p : Z) : M (option Z) :=
  fun d => (Ok (option_map stock_count (find_product p d.(products))), d).

(** [x if x is not None else y] *)
Definition if_none (x : option Z) (y : Z) : Z :=
  match x with Some v => v | None => y end.

Definition with_price_stock (pr : product) (np ns : Z) : product :=
  mkProduct pr.(pid) pr.(name) pr.(category) np ns pr.(descr).

(** [UPDATE products SET price = ?, stock_count = ? WHERE pid = ?], returning
    the cursor's [rowcount]. *)
Definition update_price_stock (p np ns : Z) : M Z :=
  fun d => (Ok (Z.of_nat (List.length (filter (fun pr => pr.(pid) =? p) d.(products)))),
            set_products d (map (fun pr => if pr.(pid) =? p then with_price_stock pr np ns else pr)
                                d.(products))).

Definition update_product_price_stock (p : Z) (new_price new_stock_count : option Z) : M bool :=
  match new_price, new_stock_count with
  | None, None => ret false
  | _, _ =>
    row <- select_price_stock p ;;
    match row with
    | None => ret false
    | Some (price, stock) =>
        let upd_price := if_none new_price price in
        let upd_stock := if_none new_stock_count stock in
        rowcount <- update_price_stock p upd_price upd_stock ;;
        ret (rowcount >? 0)
    end
  end.

(** ** Order history (crud.py, lines 644-733) *)

(** [ORDER BY odate DESC] *)
Definition sort_odate_desc : list order -> list order :=
  sort_by (fun a b => b.(o_odate) <=? a.(o_odate)).

Definition list_orders (cid page page_size : Z) : M (list order * Z) :=
  fun d =>
    let mine := filter (fun o => o.(o_cid) =? cid) d.(orders) in
    let total := Z.of_nat (List.length mine) in
    let offset := Z.max (page - 1) 0 * page_size in
    (Ok (limit_offset page_size offset (sort_odate_desc mine), total), d).

(** [ORDER BY lineNo] *)
Definition sort_lineNo : list orderline -> list orderline :=
  sort_by (fun a b => a.(l_lineNo) <=? b.(l_lineNo)).

(** [SELECT ... FROM orders WHERE ono = ?] with [fetchone]. *)
Definition find_order (ono : Z) (os : list order) : option order :=
  find (fun o => o.(o_ono) =? ono) os.

Definition get_order_detail (ono : Z) : M (option order * list orderline) :=
  fun d =>
    match find_order ono d.(orders) with
    | None => (Ok (None, []), d)
    | Some o => (Ok (Some o, sort_lineNo (filter (fun l => l.(l_ono) =? ono) d.(orderlines))), d)
    end.

(** [SUM(qty * uprice)]; [COALESCE(..., 0.0)] makes it 0 without a line.
    Prices are exact numbers here, as in the rest of the development. *)
Definition line_total (ls : list orderline) : Z :=
  fold_right (fun l acc => l.(l_qty) * l.(l_uprice) + acc) 0 ls.

Definition compute_order_total (ono : Z) : M Z :=
  fun d => (Ok (line_total (filter (fun l => l.(l_ono) =? ono) d.(orderlines))), d).

(** The page count of the past-orders screen (scr_past_orders.py, line 144):
    [max(ceil(total / 5), 1)], the ceiling taken exactly. *)
Definition past_orders_page_cnt (total : Z) : Z := Z.max ((total + 4) / 5) 1.

(** ** Sales reports (crud.py, lines 774-830) *)

(** [ORDER BY count DESC, pid] over [(pid, count)] rows. *)
Definition rank_before (a b : Z * Z) : bool :=
  (snd b <? snd a) || ((snd a =? snd b) && (fst a <=? fst b)).

Definition sort_rank : list (Z * Z) -> list (Z * Z) := sort_by rank_before.

(** [SELECT pid, COUNT(DISTINCT ono) FROM orderlines GROUP BY pid] *)
Definition order_counts (ls : list orderline) : list (Z * Z) :=
  map (fun p => (p, Z.of_nat (List.length
                  (nodup Z.eq_dec (map l_ono (filter (fun l => l.(l_pid) =? p) ls))))))
      (nodup Z.eq_dec (map l_pid ls)).

(** Python's [rows[:k]]: a negative [k] counts from the end. *)
Definition py_take {A} (k : Z) (l : list A) : list A :=
  if k <? 0 then firstn (Z.to_nat (Z.of_nat (List.length l) + k)) l
  else firstn (Z.to_nat k) l.

(** The post-processing shared by both reports. *)
Definition top_rows (k : Z) (include_ties_at_k : bool) (rows : list (Z * Z)) : list (Z * Z) :=
  match rows with
  | [] => []
  | _ =>
    if negb include_ties_at_k then py_take k rows
    else if k <? 1 then []
    else
      let threshold :=
        snd (nth (Z.to_nat (Z.min k (Z.of_nat (List.length rows)) - 1)) rows (0, 0)) in
      filter (fun r => threshold <=? snd r) rows
  end.

Definition top_products_by_orders (k : Z) (include_ties_at_k : bool) : M (list (Z * Z)) :=
  fun d => (Ok (top_rows k include_ties_at_k (sort_rank (order_counts d.(orderlines)))), d).

(** ** Lemmas on the sort, the pages and the lookups *)

Section SortFacts.
Context {A : Type} (before : A -> A -> bool).

Lemma insert_by_perm x l : Permutation (insert_by before x l) (x :: l).
Proof.
  induction l as [|y l IH]; simpl; [reflexivity|].
  destruct (before x y); [reflexivity|].
  transitivity (y :: x :: l); [now constructor|apply perm_swap].
Qed.

Lemma sort_by_perm l : Permutation (sort_by before l) l.
Proof.
  induction l as [|x l IH]; simpl; [reflexivity|].
  rewrite insert_by_perm. now constructor.
Qed.

Hypothesis before_total : forall x y, before x y = false -> before y x = true.

Lemma insert_by_sorted x l :
  Sorted (fun a b => before a b = true) l ->
  Sorted (fun a b => before a b = true) (insert_by before x l).
Proof.
  induction 1 as [|y l Hs IH Hhd]; simpl; [repeat constructor|].
  case_eq (before x y); intros Hxy.
  - constructor; [now constructor|now constructor].
  - constructor; [exact IH|].
    destruct l as [|z l]; simpl.
    + constructor. now apply before_total.
    + inversion Hhd; subst.
      destruct (before x z); constructor; [now apply before_total|assumption].
Qed.

Lemma sort_by_sorted l : Sorted (fun a b => before a b = true) (sort_by before l).
Proof.
  induction l as [|x l IH]; simpl; [constructor|]. now apply insert_by_sorted.
Qed.

End SortFacts.

Lemma sorted_weaken {A} (R R' : A -> A -> Prop) l :
  (forall a b, R a b -> R' a b) -> Sorted R l -> Sorted R' l.
Proof.
  intros HR. induction 1 as [|a l Hs IH Hhd]; constructor; [exact IH|].
  destruct Hhd; constructor. now apply HR.
Qed.

Lemma filter_all_true {A} (f : A -> bool) l :
  (forall x, In x l -> f x = true) -> filter f l = l.
Proof.
  induction l as [|a l IH]; intros H; simpl; [reflexivity|].
  rewrite H by now left. f_equal. apply IH. intros x Hx. apply H. now right.
Qed.

Lemma strongly_sorted_split {A} (R : A -> A -> Prop) l1 x l2 :
  StronglySorted R (l1 ++ x :: l2) ->
  (forall y, In y l1 -> R y x) /\ (forall y, In y l2 -> R x y).
Proof.
  induction l1 as [|a l1 IH]; simpl; intros H.
  - inversion H; subst. split; [tauto|]. now apply Forall_forall.
  - inversion H as [|? ? Hs Hall]; subst. destruct (IH Hs) as [H1 H2].
    split; [|exact H2]. intros y [<-|Hy]; [|now apply H1].
    eapply Forall_forall; [exact Hall|]. apply in_or_app. right. now left.
Qed.

Lemma firstn_middle {A} (l1 l2 : list A) x :
  firstn (S (List.length l1)) (l1 ++ x :: l2) = l1 ++ [x].
Proof. induction l1 as [|a l1 IH]; simpl; [reflexivity|]. now rewrite <- IH. Qed.

Lemma skipn_middle {A} (l1 l2 : list A) x :
  skipn (S (List.length l1)) (l1 ++ x :: l2) = l2.
Proof. induction l1 as [|a l1 IH]; simpl; [reflexivity|]. exact IH. Qed.

Lemma pages_concat {A} (K n : nat) (l : list A) :
  (0 < K)%nat -> (List.length l <= n * K)%nat ->
  List.concat (map (fun i => firstn K (skipn (i * K) l)) (seq 0 n)) = l.
Proof.
  intros HK. revert l. induction n as [|n IH]; intros l Hl.
  - destruct l; [reflexivity|simpl in Hl; lia].
  - cbn [seq map List.concat]. rewrite <- seq_shift, map_map.
    rewrite Nat.mul_0_l, skipn_O.
    rewrite (map_ext _ (fun i => firstn K (skipn (i * K) (skipn K l)))).
    2:{ intros i. rewrite skipn_skipn. f_equal. f_equal. lia. }
    rewrite IH by (rewrite length_skipn; simpl in Hl; lia).
    apply firstn_skipn.
Qed.

Lemma limit_offset_page {A} (K : Z) i (l : list A) :
  0 <= K -> limit_offset K (Z.of_nat i * K) l = firstn (Z.to_nat K) (skipn (i * Z.to_nat K) l).
Proof.
  intros HK. unfold limit_offset.
  replace (K <? 0) with false by (symmetry; apply Z.ltb_ge; lia).
  f_equal. f_equal. lia.
Qed.

Lemma find_product_map f q ps :
  (forall pr, pid (f pr) = pid pr) ->
  find_product q (map f ps) = option_map f (find_product q ps).
Proof.
  intros Hf. unfold find_product. induction ps as [|pr ps IH]; simpl; [reflexivity|].
  rewrite Hf. destruct (pid pr =? q); [reflexivity|exact IH].
Qed.

Lemma find_product_count p ps pr :
  find_product p ps = Some pr -> lt 0 (List.length (filter (fun r => r.(pid) =? p) ps)).
Proof.
  unfold find_product. induction ps as [|r ps IH]; simpl; [discriminate|].
  destruct (pid r =? p); simpl; [lia|exact IH].
Qed.

Lemma find_order_none ono os :
  ~ In ono (map o_ono os) -> find_order ono os = None.
Proof.
  unfold find_order. induction os as [|o os IH]; simpl; [reflexivity|].
  intros Hn. destruct (Z.eqb_spec (o_ono o) ono); [tauto|]. apply IH. tauto.
Qed.

Lemma find_order_app_none ono os1 os2 :
  find_order ono os1 = None -> find_order ono (os1 ++ os2) = find_order ono os2.
Proof.
  unfold find_order. induction os1 as [|o os1 IH]; simpl; [reflexivity|].
  destruct (o_ono o =? ono); [discriminate|exact IH].
Qed.

Lemma number_lines_ono ono n cs :
  filter (fun l => l.(l_ono) =? ono) (number_lines ono n cs) = number_lines ono n cs.
Proof.
  revert n. induction cs as [|[[p q] pr] cs IH]; intros n; simpl; [reflexivity|].
  now rewrite Z.eqb_refl, IH.
Qed.

Lemma sort_lineNo_number_lines ono n cs :
  sort_lineNo (number_lines ono n cs) = number_lines ono n cs.
Proof.
  unfold sort_lineNo. revert n. induction cs as [|[[p q] pr] cs IH]; intros n;
    [reflexivity|].
  cbn [number_lines sort_by]. rewrite IH.
  destruct cs as [|[[p' q'] pr'] cs]; simpl; [reflexivity|].
  replace (n <=? n + 1) with true by (symmetry; apply Z.leb_le; lia). reflexivity.
Qed.

Lemma line_total_number_lines ono n cs :
  line_total (number_lines ono n cs) = fold_right (fun '(p, q, pr) acc => q * pr + acc) 0 cs.
Proof.
  revert n. induction cs as [|[[p q] pr] cs IH]; intros n; simpl; [reflexivity|].
  now rewrite IH.
Qed.

Lemma ceil_div5 t : 0 <= t -> t <= 5 * ((t + 4) / 5).
Proof.
  intros Ht. pose proof (Z.div_mod (t + 4) 5 ltac:(lia)).
  pose proof (Z.mod_pos_bound (t + 4) 5 ltac:(lia)). lia.
Qed.

Lemma rank_before_total a b : rank_before a b = false -> rank_before b a = true.
Proof.
  unfold rank_before.
  destruct (Z.ltb_spec (snd b) (snd a)), (Z.ltb_spec (snd a) (snd b)),
    (Z.eqb_spec (snd a) (snd b)), (Z.eqb_spec (snd b) (snd a)),
    (Z.leb_spec (fst a) (fst b)), (Z.leb_spec (fst b) (fst a));
    simpl; intros Hrb; try discriminate; try reflexivity; lia.
Qed.

Lemma sort_rank_sorted l :
  Sorted (fun a b => snd b < snd a \/ (snd a = snd b /\ fst a <= fst b)) (sort_rank l).
Proof.
  apply (sorted_weaken (fun a b => rank_before a b = true)).
  - intros a b. unfold rank_before.
    destruct (Z.ltb_spec (snd b) (snd a)), (Z.eqb_spec (snd a) (snd b)),
      (Z.leb_spec (fst a) (fst b)); simpl; intros Hrb; try discriminate; lia.
  - apply sort_by_sorted, rank_before_total.
Qed.

Lemma sorted_strict {A} (R R' : A -> A -> Prop) (key : A -> Z) l :
  (forall a b, R a b -> key a <> key b -> R' a b) ->
  NoDup (map key l) -> Sorted R l -> Sorted R' l.
Proof.
  intros HR Hnd Hs. revert Hnd. induction Hs as [|a l Hs IH Hhd]; intros Hnd;
    constructor; simpl in Hnd; apply NoDup_cons_iff in Hnd as [Hn Hnd];
    [now apply IH|].
  destruct Hhd as [|b l' Hab]; constructor. apply HR; [exact Hab|].
  intros E. apply Hn. simpl. left. now symmetry.
Qed.

(** The rows of the ranking queries, in the sorted order. *)
Lemma top_rows_ties k rows :
  1 <= k -> Sorted (fun a b => snd b <= snd a) rows ->
  let m := Nat.min (Z.to_nat k) (List.length rows) in
  top_rows k true rows =
    firstn m rows ++ filter (fun r => snd r =? snd (nth (m - 1) rows (0, 0))) (skipn m rows).
Proof.
  intros Hk Hs m. subst m.
  destruct rows as [|r0 rest] eqn:Er; [now rewrite firstn_nil, skipn_nil|].
  rewrite <- Er in *.
  assert (Hlen : (0 < List.length rows)%nat) by (rewrite Er; simpl; lia).
  assert (Ht : top_rows k true rows =
    filter (fun r => snd (nth (Z.to_nat (Z.min k (Z.of_nat (List.length rows)) - 1))
                                rows (0, 0)) <=? snd r) rows).
  { rewrite Er. unfold top_rows.
    replace (k <? 1) with false by (symmetry; apply Z.ltb_ge; lia). reflexivity. }
  rewrite Ht.
  replace (Z.to_nat (Z.min k (Z.of_nat (List.length rows)) - 1))
    with (Nat.min (Z.to_nat k) (List.length rows) - 1)%nat by lia.
  set (m := Nat.min (Z.to_nat k) (List.length rows)).
  assert (Hm : (m - 1 < List.length rows)%nat) by lia.
  destruct (nth_split rows (0, 0) Hm) as [l1 [l2 [Hsplit Hl1]]].
  set (t := nth (m - 1) rows (0, 0)) in *.
  assert (Hss : StronglySorted (fun a b => snd b <= snd a) rows)
    by (apply Sorted_StronglySorted; [intros a b c; lia|exact Hs]).
  rewrite Hsplit in Hss. apply strongly_sorted_split in Hss as [Hpre Hpost].
  assert (Em : m = S (List.length l1)) by lia.
  rewrite Hsplit, Em, firstn_middle, skipn_middle, filter_app. simpl.
  rewrite Z.leb_refl, filter_all_true.
  2:{ intros y Hy. apply Z.leb_le. now apply Hpre. }
  rewrite <- app_assoc. simpl. f_equal. f_equal.
  apply filter_ext_in. intros y Hy. specialize (Hpost y Hy).
  destruct (Z.leb_spec (snd t) (snd y)), (Z.eqb_spec (snd y) (snd t)); auto; lia.
Qed.

(** ** Properties of the product, order and report code *)

(** [update_product_price_stock] does nothing and returns False when
    neither field is given, and when no product has the pid. *)
Theorem update_product_price_stock_noop p np ns d :
  (np = None /\ ns = None) \/ find_product p d.(products) = None ->
  update_product_price_stock p np ns d = (Ok false, d).
Proof.
  intros [[-> ->]|Hf]; [reflexivity|].
  destruct np as [x|], ns as [y|]; try reflexivity;
    cbv [update_product_price_stock bind select_price_stock ret]; rewrite Hf; reflexivity.
Qed.

(** On an existing product, with at least one field given,
    [update_product_price_stock] returns True; [get_product] then shows the
    given fields and the old value of a field passed as None; no other
    product, no pid and no other table changes. *)
Theorem update_product_price_stock_found p np ns d pr :
  find_product p d.(products) = Some pr ->
  np <> None \/ ns <> None ->
  let d' := snd (update_product_price_stock p np ns d) in
  fst (update_product_price_stock p np ns d) = Ok true /\
  fst (get_product p d') =
    Ok (Some (with_price_stock pr (if_none np pr.(price)) (if_none ns pr.(stock_count)))) /\
  (forall q, q <> p -> find_product q d'.(products) = find_product q d.(products)) /\
  map pid d'.(products) = map pid d.(products) /\
  d'.(cart) = d.(cart) /\ d'.(orders) = d.(orders) /\
  d'.(orderlines) = d.(orderlines) /\ d'.(search) = d.(search).
Proof.
  intros Hf Hn d'.
  set (f := fun r => if pid r =? p
                     then with_price_stock r (if_none np pr.(price)) (if_none ns pr.(stock_count))
                     else r).
  assert (Heq : update_product_price_stock p np ns d =
                (Ok true, set_products d (map f d.(products)))).
  { pose proof (find_product_count _ _ _ Hf) as Hc.
    destruct np as [x|], ns as [y|]; [| | |destruct Hn; congruence];
      cbv [update_product_price_stock bind select_price_stock ret update_price_stock];
      rewrite Hf; simpl;
      (replace (Z.of_nat _ >? 0) with true by (symmetry; apply Z.gtb_lt; lia));
      reflexivity. }
  assert (Hpid : forall r, pid (f r) = pid r)
    by (intros r; unfold f; destruct (pid r =? p); reflexivity).
  subst d'. rewrite Heq. simpl.
  apply find_some in Hf as Hf'. destruct Hf' as [_ Hp]. apply Z.eqb_eq in Hp.
  repeat split.
  - unfold get_product. simpl. rewrite find_product_map by exact Hpid.
    rewrite Hf. simpl. unfold f. now rewrite Hp, Z.eqb_refl.
  - intros q Hq. rewrite find_product_map by exact Hpid.
    destruct (find_product q (products d)) as [r|] eqn:Hr; [|reflexivity].
    apply find_some in Hr as [_ Hr]. apply Z.eqb_eq in Hr. simpl. unfold f.
    destruct (Z.eqb_spec (pid r) p); [congruence|reflexivity].
  - rewrite map_map. apply map_ext. exact Hpid.
Qed.

Definition db_prices : db :=
  mkDb [keyboard; sold_out_mouse] [] [] [] [].

(** Witness: restocking the mouse (pid 11) to 8 keeps its price. *)
Lemma update_product_price_stock_found_witness :
  find_product 11 db_prices.(products) = Some sold_out_mouse /\
  (@None Z <> None \/ Some 8 <> None) /\
  fst (get_product 11 (snd (update_product_price_stock 11 None (Some 8) db_prices))) =
    Ok (Some (with_price_stock sold_out_mouse 1999 8)).
Proof.
  split; [reflexivity|]. split; [right; discriminate|].
  assert (Hn : @None Z <> None \/ Some 8 <> None) by (right; discriminate).
  destruct (update_product_price_stock_found 11 None (Some 8) db_prices sold_out_mouse
              eq_refl Hn) as [_ [H _]].
  exact H.
Defined.

(** Witness: pid 12 does not exist. *)
Lemma update_product_price_stock_noop_witness :
  find_product 12 db_prices.(products) = None /\
  update_product_price_stock 12 (Some 1) None db_prices = (Ok false, db_prices).
Proof.
  split; [reflexivity|]. apply update_product_price_stock_noop. right. reflexivity.
Defined.

(** [list_orders] with the page size 5 of the past-orders screen: page [i+1]
    is the [i]-th block of five of the customer's orders, newest first, with
    the total count; the pages [1 .. max(ceil(total / 5), 1)] together list
    every order of the customer exactly once, in date order (latest first),
    and the page after them is empty; a page number below 1 gives page 1;
    the store is not changed. *)
Theorem past_orders_pagination cid d :
  let mine := filter (fun o => o.(o_cid) =? cid) d.(orders) in
  let total := Z.of_nat (List.length mine) in
  let n := past_orders_page_cnt total in
  (forall i, fst (list_orders cid (Z.of_nat i + 1) 5 d) =
             Ok (firstn 5 (skipn (i * 5) (sort_odate_desc mine)), total)) /\
  List.concat (map (fun i => firstn 5 (skipn (i * 5) (sort_odate_desc mine)))
                   (seq 0 (Z.to_nat n))) = sort_odate_desc mine /\
  Permutation (sort_odate_desc mine) mine /\
  Sorted (fun a b => b.(o_odate) <= a.(o_odate)) (sort_odate_desc mine) /\
  fst (list_orders cid (n + 1) 5 d) = Ok ([], total) /\
  (forall page ps, page <= 1 -> list_orders cid page ps d = list_orders cid 1 ps d) /\
  (forall page ps, snd (list_orders cid page ps d) = d).
Proof.
  cbv zeta.
  set (mine := filter (fun o => o.(o_cid) =? cid) d.(orders)).
  assert (Hp : Permutation (sort_odate_desc mine) mine) by apply sort_by_perm.
  assert (Hl : List.length (sort_odate_desc mine) = List.length mine)
    by now apply Permutation_length.
  assert (Hn : (List.length mine <= Z.to_nat (past_orders_page_cnt (Z.of_nat (List.length mine))) * 5)%nat).
  { pose proof (ceil_div5 (Z.of_nat (List.length mine)) ltac:(lia)).
    unfold past_orders_page_cnt. lia. }
  split; [|split; [|split; [exact Hp|split; [|split; [|split]]]]].
  - intros i. unfold list_orders. fold mine. cbn [fst].
    replace (Z.max (Z.of_nat i + 1 - 1) 0 * 5) with (Z.of_nat i * 5) by lia.
    now rewrite limit_offset_page by lia.
  - apply pages_concat; lia.
  - apply (sorted_weaken (fun a b => (b.(o_odate) <=? a.(o_odate)) = true)).
    + intros a b H. now apply Z.leb_le.
    + apply sort_by_sorted. intros x y H. apply Z.leb_gt in H. apply Z.leb_le. lia.
  - unfold list_orders. fold mine. cbn [fst].
    set (n := past_orders_page_cnt (Z.of_nat (List.length mine))).
    assert (Hn1 : 1 <= n) by apply Z.le_max_r.
    replace (Z.max (n + 1 - 1) 0 * 5) with (Z.of_nat (Z.to_nat n) * 5) by lia.
    rewrite limit_offset_page by lia.
    rewrite skipn_all2 by (simpl; lia). now rewrite firstn_nil.
  - intros page ps Hpage. unfold list_orders.
    now replace (Z.max (page - 1) 0) with (Z.max (1 - 1) 0) by lia.
  - reflexivity.
Qed.

(** After a checkout that returns [ono] (into a store with no stray order
    line numbered [ono]), [get_order_detail ono] returns the new header and
    exactly the committed lines numbered 1, 2, ..., [compute_order_total]
    is the sum of quantity times price over those lines, and the
    customer's order count in [list_orders] is one higher. *)
Theorem checkout_order_detail draws d cid s addr odate ono :
  pick_ono draws d.(orders) = Some ono ->
  ~ In ono (map l_ono d.(orderlines)) ->
  let C := committed_lines d.(products) (group_cart cid d.(cart)) in
  let d' := snd (checkout draws cid s addr odate d) in
  fst (get_order_detail ono d') = Ok (Some (mkOrder ono cid s odate addr), number_lines ono 1 C) /\
  fst (compute_order_total ono d') = Ok (fold_right (fun '(p, q, pr) acc => q * pr + acc) 0 C) /\
  (forall page ps, exists rows,
     fst (list_orders cid page ps d') =
     Ok (rows, Z.of_nat (List.length (filter (fun o => o.(o_cid) =? cid) d.(orders))) + 1)).
Proof.
  intros Hpick Hlines C d'. subst C d'.
  rewrite (checkout_eq _ _ _ _ _ _ _ Hpick). cbn [snd].
  apply pick_ono_fresh in Hpick as [Hfresh _].
  assert (Hold : filter (fun l => l.(l_ono) =? ono) d.(orderlines) = []).
  { apply filter_all_false. intros l Hl. apply Z.eqb_neq. intros E.
    apply Hlines. apply in_map_iff. now exists l. }
  split; [|split].
  - unfold get_order_detail. cbn [orders orderlines].
    rewrite find_order_app_none by (now apply find_order_none).
    simpl. rewrite Z.eqb_refl.
    now rewrite filter_app, Hold, number_lines_ono, app_nil_l, sort_lineNo_number_lines.
  - unfold compute_order_total. cbn [orderlines fst].
    now rewrite filter_app, Hold, number_lines_ono, app_nil_l, line_total_number_lines.
  - intros page ps. eexists. unfold list_orders. cbn [orders fst].
    rewrite filter_app. simpl. rewrite Z.eqb_refl, length_app. simpl.
    f_equal. f_equal. lia.
Qed.

(** Witness: the checkout of C1's example (order 123456). *)
Lemma checkout_order_detail_witness :
  pick_ono [500000; 123456] db_checkout.(orders) = Some 123456 /\
  ~ In 123456 (map l_ono db_checkout.(orderlines)) /\
  fst (get_order_detail 123456 (snd (checkout [500000; 123456] 1 9 "1 Main St" 20250101 db_checkout))) =
    Ok (Some (mkOrder 123456 1 9 20250101 "1 Main St"), [mkOrderLine 123456 1 10 5 4999]).
Proof.
  split; [reflexivity|]. split; [simpl; tauto|].
  destruct (checkout_order_detail [500000; 123456] db_checkout 1 9 "1 Main St" 20250101 123456
              eq_refl (fun H => H)) as [H _].
  rewrite H. vm_compute. reflexivity.
Defined.

(** [top_products_by_orders] reads one row [(pid, count)] per product that
    appears in an order line, where [count] is the number of distinct
    orders with a line of it (so at least 1), ranked by count descending
    and then pid ascending; it changes nothing. *)
Theorem top_products_by_orders_rows k ties d :
  let rows := sort_rank (order_counts d.(orderlines)) in
  top_products_by_orders k ties d = (Ok (top_rows k ties rows), d) /\
  NoDup (map fst rows) /\
  (forall p c, In (p, c) rows <->
     In p (map l_pid d.(orderlines)) /\
     c = Z.of_nat (List.length (nodup Z.eq_dec
           (map l_ono (filter (fun l => l.(l_pid) =? p) d.(orderlines)))))) /\
  (forall p c, In (p, c) rows -> 1 <= c) /\
  Sorted (fun a b => snd b < snd a \/ (snd a = snd b /\ fst a < fst b)) rows.
Proof.
  cbv zeta.
  set (ls := d.(orderlines)).
  assert (Hp : Permutation (sort_rank (order_counts ls)) (order_counts ls))
    by apply sort_by_perm.
  assert (Hnd : NoDup (map fst (sort_rank (order_counts ls)))).
  { apply (Permutation_NoDup (Permutation_sym (Permutation_map fst Hp))).
    unfold order_counts. rewrite map_map. simpl. rewrite map_id. apply NoDup_nodup. }
  assert (Hin : forall p c, In (p, c) (sort_rank (order_counts ls)) <->
     In p (map l_pid ls) /\
     c = Z.of_nat (List.length (nodup Z.eq_dec
           (map l_ono (filter (fun l => l.(l_pid) =? p) ls))))).
  { intros p c. split.
    - intros H. apply (Permutation_in _ Hp) in H. unfold order_counts in H.
      apply in_map_iff in H as [p' [E Hp']]. injection E as <- <-.
      split; [now apply nodup_In in Hp'|reflexivity].
    - intros [H ->]. apply (Permutation_in _ (Permutation_sym Hp)).
      unfold order_counts. apply in_map_iff. exists p. split; [reflexivity|].
      now apply nodup_In. }
  split; [reflexivity|]. split; [exact Hnd|]. split; [exact Hin|]. split.
  - intros p c H. apply Hin in H as [H ->].
    apply in_map_iff in H as [l [Hl Hin']].
    assert (Hx : In (l_ono l) (nodup Z.eq_dec
                  (map l_ono (filter (fun l => l.(l_pid) =? p) ls)))).
    { apply nodup_In, in_map, filter_In. split; [exact Hin'|]. now apply Z.eqb_eq. }
    destruct (nodup _ _) as [|x xs]; [destruct Hx|]. simpl. lia.
  - apply (sorted_strict (fun a b => snd b < snd a \/ (snd a = snd b /\ fst a <= fst b)) _ fst);
      [|exact Hnd|apply sort_rank_sorted].
    intros a b [H|[H1 H2]] Hne; [left; exact H|right; split; [exact H1|lia]].
Qed.

(** With [include_ties_at_k = True] and [k >= 1], [top_products_by_orders]
    returns the first [m = min(k, number of rows)] rows of the ranking,
    followed by every later row whose count equals the count of row [m]. *)
Theorem top_products_by_orders_ties k d :
  1 <= k ->
  let rows := sort_rank (order_counts d.(orderlines)) in
  let m := Nat.min (Z.to_nat k) (List.length rows) in
  fst (top_products_by_orders k true d) =
    Ok (firstn m rows ++ filter (fun r => snd r =? snd (nth (m - 1) rows (0, 0))) (skipn m rows)).
Proof.
  intros Hk. cbv zeta. unfold top_products_by_orders. cbn [fst]. f_equal.
  apply top_rows_ties; [exact Hk|].
  apply (sorted_weaken (fun a b => snd b < snd a \/ (snd a = snd b /\ fst a <= fst b)));
    [intros a b [H|[H _]]; lia|apply sort_rank_sorted].
Qed.

Definition db_sales : db :=
  mkDb [] []
       [mkOrder 1 1 1 20250101 "a"; mkOrder 2 1 1 20250102 "a"; mkOrder 3 2 1 20250103 "b"]
       [mkOrderLine 1 1 10 1 5; mkOrderLine 1 2 11 1 5; mkOrderLine 2 1 11 2 5;
        mkOrderLine 2 2 12 1 5; mkOrderLine 3 1 12 1 5; mkOrderLine 3 2 13 1 5]
       [].

(** Witness: products 11 and 12 are in two orders each, 10 and 13 in one;
    with [k = 3] the product 13 tied with the third row (product 10) is
    included. *)
Lemma top_products_by_orders_ties_witness :
  1 <= 3 /\
  fst (top_products_by_orders 3 true db_sales) = Ok [(11, 2); (12, 2); (10, 1); (13, 1)].
Proof.
  split; [lia|]. rewrite (top_products_by_orders_ties 3 db_sales ltac:(lia)).
  vm_compute. reflexivity.
Defined.

(** With [include_ties_at_k = False], [top_products_by_orders] returns the
    first [k] rows of the ranking for [k >= 0], and for a negative [k]
    every row but the last [-k] (Python's slice [rows[:k]]); with ties
    included, [k < 1] returns nothing. *)
Theorem top_products_by_orders_no_ties k d :
  let rows := sort_rank (order_counts d.(orderlines)) in
  (0 <= k -> fst (top_products_by_orders k false d) = Ok (firstn (Z.to_nat k) rows)) /\
  (k < 0 -> fst (top_products_by_orders k false d) =
              Ok (firstn (List.length rows - Z.to_nat (- k)) rows)) /\
  (k < 1 -> fst (top_products_by_orders k true d) = Ok []).
Proof.
  cbv zeta. unfold top_products_by_orders. cbn [fst].
  set (rows := sort_rank (order_counts d.(orderlines))).
  destruct rows as [|r rest] eqn:E.
  - split; [|split]; intros; simpl; now rewrite ?firstn_nil.
  - unfold top_rows, py_take. simpl negb. cbv iota. split; [|split]; intros Hk.
    + replace (k <? 0) with false by (symmetry; apply Z.ltb_ge; lia). reflexivity.
    + replace (k <? 0) with true by (symmetry; apply Z.ltb_lt; lia).
      f_equal. f_equal. lia.
    + replace (k <? 1) with true by (symmetry; apply Z.ltb_lt; lia). reflexivity.
Qed.

(** * Accounts, sessions and product views (crud.py, lines 24-180 and 435-442,
    utils/state.py, views/scr_login.py) *)

(** The tables [users], [customers], [sessions] and [viewedProduct].  None
    of the functions on them touches a table of [db], so they get a store
    of their own. *)
Record user_row := mkUser { u_uid : Z; u_pwd : string; u_role : string }.
Record customer_row := mkCustomer { cu_cid : Z; cu_name : string; cu_email : string }.
Record session_row := mkSession {
  se_cid : Z;
  se_sessionNo : Z;
  se_start_time : Z;
  se_end_time : option Z
}.
Record viewed_row := mkViewed { v_cid : Z; v_sessionNo : Z; v_ts : Z; v_pid : Z }.

Record udb := mkUdb {
  users : list user_row;
  customers : list customer_row;
  sessions : list session_row;
  viewed : list viewed_row
}.

Definition set_sessions (u : udb) (ss : list session_row) : udb :=
  mkUdb u.(users) u.(customers) ss u.(viewed).
Definition set_viewed (u : udb) (vs : list viewed_row) : udb :=
  mkUdb u.(users) u.(customers) u.(sessions) vs.

Definition UM (A : Type) := udb -> result A * udb.

(** [SELECT 1 FROM customers WHERE email = ? LIMIT 1]; [row is None] *)
Definition email_available (email : string) : UM bool :=
  fun u => (Ok (negb (existsb (fun c => String.eqb c.(cu_email) email) u.(customers))), u).

(** The loop of [_generate_uid_unique] run on the values [random.randint]
    returns; [None] when it has not exited on them. *)
Fixpoint pick_uid (draws : list Z) (us : list user_row) : option Z :=
  match draws with
  | [] => None
  | x :: rest => if existsb (fun r => r.(u_uid) =? x) us then pick_uid rest us else Some x
  end.

(** [_generate_uid_unique] *)
Definition generate_uid_unique (draws : list Z) : UM Z :=
  fun u => match pick_uid draws u.(users) with
           | Some x => (Ok x, u)
           | None => (Diverge, u)
           end.

Definition register_customer (draws : list Z) (name email pwd : string) : UM (Z * Z) :=
  fun u =>
    match generate_uid_unique draws u with
    | (Ok uid, u1) =>
        let cid := uid in
        (Ok (uid, cid),
         mkUdb (u1.(users) ++ [mkUser uid pwd "customer"])
               (u1.(customers) ++ [mkCustomer cid name email])
               u1.(sessions) u1.(viewed))
    | (Err e, u1) => (Err e, u1)
    | (Diverge, u1) => (Diverge, u1)
    end.

(** [SELECT uid, pwd, role FROM users WHERE uid = ? AND pwd = ?] with
    [fetchone]. *)
Definition login (uid : Z) (pwd : string) : UM (option user_row) :=
  fun u => (Ok (find (fun r => (r.(u_uid) =? uid) && String.eqb r.(u_pwd) pwd) u.(users)), u).

Definition get_user (uid : Z) : UM (option user_row) :=
  fun u => (Ok (find (fun r => r.(u_uid) =? uid) u.(users)), u).

Definition get_user_role (uid : Z) : UM (option string) :=
  fun u => (Ok (option_map u_role (find (fun r => r.(u_uid) =? uid) u.(users))), u).

(** [SELECT c.cid, c.name, c.email FROM customers c JOIN users u ON
    c.cid=u.uid WHERE u.uid = ?] with [fetchone]: the first customer row
    with that cid, provided a user row has the uid. *)
Definition get_customer (uid : Z) : UM (option customer_row) :=
  fun u => (Ok (find (fun c => (c.(cu_cid) =? uid) && existsb (fun r => r.(u_uid) =? uid) u.(users))
                     u.(customers)), u).

(** The loop of [start_session] on the values [random.randint] returns. *)
Fixpoint pick_session_no (draws : list Z) (cid : Z) (ss : list session_row) : option Z :=
  match draws with
  | [] => None
  | x :: rest =>
      if existsb (fun r => (r.(se_cid) =? cid) && (r.(se_sessionNo) =? x)) ss
      then pick_session_no rest cid ss else Some x
  end.

Definition start_session (draws : list Z) (cid start_time : Z) : UM Z :=
  fun u => match pick_session_no draws cid u.(sessions) with
           | None => (Diverge, u)
           | Some s => (Ok s, set_sessions u (u.(sessions) ++ [mkSession cid s start_time None]))
           end.

(** [UPDATE sessions SET end_time = ? WHERE cid = ? AND sessionNo = ?] *)
Definition end_session (cid sessionNo end_time : Z) : UM unit :=
  fun u => (Ok tt, set_sessions u
             (map (fun r => if (r.(se_cid) =? cid) && (r.(se_sessionNo) =? sessionNo)
                            then mkSession r.(se_cid) r.(se_sessionNo) r.(se_start_time) (Some end_time)
                            else r) u.(sessions))).

Definition record_view (cid sessionNo p ts : Z) : UM unit :=
  fun u => (Ok tt, set_viewed u (u.(viewed) ++ [mkViewed cid sessionNo ts p])).

(** The view count of one product: [COUNT] over all its rows. *)
Definition view_count (vs : list viewed_row) (p : Z) : Z :=
  Z.of_nat (List.length (filter (fun v => v.(v_pid) =? p) vs)).

(** [SELECT pid, COUNT] of rows [FROM viewedProduct GROUP BY pid] *)
Definition view_counts (vs : list viewed_row) : list (Z * Z) :=
  map (fun p => (p, view_count vs p)) (nodup Z.eq_dec (map v_pid vs)).

Definition top_products_by_views (k : Z) (include_ties_at_k : bool) : UM (list (Z * Z)) :=
  fun u => (Ok (top_rows k include_ties_at_k (sort_rank (view_counts u.(viewed)))), u).

(** [GlobalState] (utils/state.py) and the store, threaded together. *)
Record global_state := mkState {
  st_uid : option Z;
  st_role : option string;
  st_session_no : option Z
}.

Definition AM (A : Type) := global_state * udb -> result A * (global_state * udb).

(** [self.role == "customer"] *)
Definition role_is_customer (role : option string) : bool :=
  match role with Some r => String.eqb r "customer" | None => false end.

(** [GlobalState.start_session]; [when] is the time [when or
    datetime.now()] evaluates to. *)
Definition state_start_session (draws : list Z) (when : Z) : AM (option Z) :=
  fun st =>
    let (g, u) := st in
    match role_is_customer g.(st_role), g.(st_uid) with
    | true, Some uid =>
        match start_session draws uid when u with
        | (Ok s, u') => (Ok (Some s), (mkState g.(st_uid) g.(st_role) (Some s), u'))
        | (Err e, u') => (Err e, (g, u'))
        | (Diverge, u') => (Diverge, (g, u'))
        end
    | _, _ => (Ok None, (g, u))
    end.

(** [GlobalState.end_session], run on logout (main.py). *)
Definition state_end_session (when : Z) : AM unit :=
  fun st =>
    let (g, u) := st in
    match role_is_customer g.(st_role), g.(st_uid), g.(st_session_no) with
    | true, Some uid, Some s =>
        match end_session uid s when u with
        | (Ok _, u') => (Ok tt, (mkState None None None, u'))
        | (Err e, u') => (Err e, (g, u'))
        | (Diverge, u') => (Diverge, (g, u'))
        end
    | _, _, _ => (Ok tt, (g, u))
    end.

(** [LoginScreen.handle_login_submit] from the call [login(uid, pwd)] on
    (the non-empty, stripped fields already parsed): on a match it sets
    [uid] and [role] and starts a session; otherwise it changes nothing. *)
Definition handle_login_submit (draws : list Z) (when uid : Z) (pwd : string) : AM unit :=
  fun st =>
    let (g, u) := st in
    match login uid pwd u with
    | (Ok (Some usr), u1) =>
        match state_start_session draws when
                (mkState (Some usr.(u_uid)) (Some usr.(u_role)) g.(st_session_no), u1) with
        | (Ok _, st') => (Ok tt, st')
        | (Err e, st') => (Err e, st')
        | (Diverge, st') => (Diverge, st')
        end
    | (Ok None, u1) => (Ok tt, (g, u1))
    | (Err e, u1) => (Err e, (g, u1))
    | (Diverge, u1) => (Diverge, (g, u1))
    end.

(** ** Properties of the account, session and view code *)

Lemma find_app_false {A} (f : A -> bool) l1 l2 :
  (forall x, In x l1 -> f x = false) -> find f (l1 ++ l2) = find f l2.
Proof.
  induction l1 as [|a l1 IH]; intros H; simpl; [reflexivity|].
  rewrite H by now left. apply IH. intros x Hx. apply H. now right.
Qed.

Lemma pick_uid_fresh draws us x :
  pick_uid draws us = Some x -> ~ In x (map u_uid us).
Proof.
  induction draws as [|y draws IH]; simpl; [discriminate|].
  case_eq (existsb (fun r => r.(u_uid) =? y) us); intros He H; [now apply IH|].
  injection H as <-. intros Hin. apply in_map_iff in Hin as [r [Hr Hin]].
  assert (existsb (fun r => r.(u_uid) =? y) us = true)
    by (apply existsb_exists; exists r; split; [exact Hin|now apply Z.eqb_eq]).
  congruence.
Qed.

Lemma pick_session_no_fresh draws cid ss s :
  pick_session_no draws cid ss = Some s ->
  forall r, In r ss -> ~ (r.(se_cid) = cid /\ r.(se_sessionNo) = s).
Proof.
  induction draws as [|y draws IH]; simpl; [discriminate|].
  case_eq (existsb (fun r => (r.(se_cid) =? cid) && (r.(se_sessionNo) =? y)) ss);
    intros He H; [now apply IH|].
  injection H as <-. intros r Hin [Hc Hs].
  assert (existsb (fun r => (r.(se_cid) =? cid) && (r.(se_sessionNo) =? y)) ss = true).
  { apply existsb_exists. exists r. split; [exact Hin|].
    rewrite Hc, Hs, !Z.eqb_refl. reflexivity. }
  congruence.
Qed.

Lemma end_session_fresh cid s st t ss :
  (forall r, In r ss -> ~ (r.(se_cid) = cid /\ r.(se_sessionNo) = s)) ->
  map (fun r => if (r.(se_cid) =? cid) && (r.(se_sessionNo) =? s)
                then mkSession r.(se_cid) r.(se_sessionNo) r.(se_start_time) (Some t)
                else r) (ss ++ [mkSession cid s st None]) =
  ss ++ [mkSession cid s st (Some t)].
Proof.
  intros H. rewrite map_app. simpl. rewrite !Z.eqb_refl. simpl. f_equal.
  rewrite <- (map_id ss) at 2. apply map_ext_in. intros r Hr.
  destruct (Z.eqb_spec (se_cid r) cid), (Z.eqb_spec (se_sessionNo r) s); simpl;
    [exfalso; exact (H r Hr (conj e e0))|reflexivity..].
Qed.

(** After [register_customer] has drawn [uid] (a uid no user has), it
    returns [(uid, uid)]; [login(uid, pwd)] then returns the user
    [(uid, pwd, "customer")] and any other password is refused, the role
    is "customer" and, when every customer row belongs to a user,
    [get_customer(uid)] returns [(uid, name, email)]; the email counts as
    taken afterwards (the function itself never checks it). *)
Theorem register_then_login draws name email pwd u uid :
  pick_uid draws u.(users) = Some uid ->
  (forall c, In c u.(customers) -> In c.(cu_cid) (map u_uid u.(users))) ->
  let u' := snd (register_customer draws name email pwd u) in
  fst (register_customer draws name email pwd u) = Ok (uid, uid) /\
  ~ In uid (map u_uid u.(users)) /\
  fst (login uid pwd u') = Ok (Some (mkUser uid pwd "customer")) /\
  (forall pwd', pwd' <> pwd -> fst (login uid pwd' u') = Ok None) /\
  fst (get_user_role uid u') = Ok (Some "customer"%string) /\
  fst (get_customer uid u') = Ok (Some (mkCustomer uid name email)) /\
  fst (email_available email u') = Ok false /\
  u'.(sessions) = u.(sessions) /\ u'.(viewed) = u.(viewed).
Proof.
  intros Hpick Hcust u'. subst u'.
  pose proof (pick_uid_fresh _ _ _ Hpick) as Hfresh.
  assert (Hold : forall r, In r u.(users) -> (r.(u_uid) =? uid) = false).
  { intros r Hr. apply Z.eqb_neq. intros E. apply Hfresh. apply in_map_iff. now exists r. }
  unfold register_customer, generate_uid_unique. rewrite Hpick. cbn [fst snd users customers sessions viewed].
  split; [reflexivity|]. split; [exact Hfresh|]. split; [|split; [|split; [|split; [|split]]]].
  - unfold login. cbn [fst users].
    rewrite find_app_false by (intros r Hr; now rewrite Hold).
    simpl. now rewrite Z.eqb_refl, String.eqb_refl.
  - intros pwd' Hne. unfold login. cbn [fst users].
    rewrite find_app_false by (intros r Hr; now rewrite Hold).
    simpl. rewrite Z.eqb_refl. simpl.
    replace (String.eqb pwd pwd') with false by (symmetry; apply String.eqb_neq; congruence).
    reflexivity.
  - unfold get_user_role. cbn [fst users].
    rewrite find_app_false by (intros r Hr; now rewrite Hold).
    simpl. now rewrite Z.eqb_refl.
  - unfold get_customer. cbn [fst users customers].
    rewrite find_app_false.
    + simpl. rewrite Z.eqb_refl, existsb_app. simpl. rewrite Z.eqb_refl, orb_true_r. reflexivity.
    + intros c Hc. replace (cu_cid c =? uid) with false; [reflexivity|].
      symmetry. apply Z.eqb_neq. intros E. apply Hfresh. rewrite <- E. now apply Hcust.
  - unfold email_available. cbn [fst customers]. rewrite existsb_app. simpl.
    now rewrite String.eqb_refl, orb_true_r.
  - split; reflexivity.
Qed.

Definition accounts : udb :=
  mkUdb [mkUser 1000 "pw" "customer"; mkUser 9001 "admin" "sales"]
        [mkCustomer 1000 "Ann" "ann@example.com"]
        [mkSession 1000 4242 20250101 (Some 20250102)]
        [].

(** Witness: the first draw 1000 is taken, 5555 is free. *)
Lemma register_then_login_witness :
  pick_uid [1000; 5555] accounts.(users) = Some 5555 /\
  (forall c, In c accounts.(customers) -> In c.(cu_cid) (map u_uid accounts.(users))) /\
  fst (login 5555 "secret" (snd (register_customer [1000; 5555] "Bo" "bo@example.com" "secret" accounts)))
    = Ok (Some (mkUser 5555 "secret" "customer")).
Proof.
  assert (Hc : forall c, In c accounts.(customers) -> In c.(cu_cid) (map u_uid accounts.(users))).
  { intros c [<-|[]]. simpl. now left. }
  split; [reflexivity|]. split; [exact Hc|].
  destruct (register_then_login [1000; 5555] "Bo" "bo@example.com" "secret" accounts 5555
              eq_refl Hc) as [_ [_ [H _]]].
  exact H.
Defined.

(** A customer's login ([handle_login_submit]) starts a session under a
    session number that customer has not used, records it open and sets
    uid, role and session number in the state; the logout that follows
    ([GlobalState.end_session]) closes exactly that session row with the
    logout time and clears the state. *)
Theorem customer_login_logout draws when t uid pwd usr s g u :
  find (fun r => (r.(u_uid) =? uid) && String.eqb r.(u_pwd) pwd) u.(users) = Some usr ->
  usr.(u_role) = "customer"%string ->
  pick_session_no draws uid u.(sessions) = Some s ->
  let st1 := snd (handle_login_submit draws when uid pwd (g, u)) in
  let st2 := snd (state_end_session t st1) in
  fst (handle_login_submit draws when uid pwd (g, u)) = Ok tt /\
  (forall r, In r u.(sessions) -> ~ (r.(se_cid) = uid /\ r.(se_sessionNo) = s)) /\
  fst st1 = mkState (Some uid) (Some "customer"%string) (Some s) /\
  (snd st1).(sessions) = u.(sessions) ++ [mkSession uid s when None] /\
  fst (state_end_session t st1) = Ok tt /\
  fst st2 = mkState None None None /\
  (snd st2).(sessions) = u.(sessions) ++ [mkSession uid s when (Some t)] /\
  (snd st2).(users) = u.(users) /\ (snd st2).(customers) = u.(customers) /\
  (snd st2).(viewed) = u.(viewed).
Proof.
  intros Hf Hrole Hs.
  pose proof (pick_session_no_fresh _ _ _ _ Hs) as Hfresh.
  apply find_some in Hf as Hf'. destruct Hf' as [_ Hm].
  apply andb_true_iff in Hm as [Hu _]. apply Z.eqb_eq in Hu.
  destruct usr as [uu up ur]. simpl in Hu, Hrole. subst uu ur.
  assert (Hstep : handle_login_submit draws when uid pwd (g, u) =
                  (Ok tt, (mkState (Some uid) (Some "customer"%string) (Some s),
                           set_sessions u (u.(sessions) ++ [mkSession uid s when None])))).
  { unfold handle_login_submit, login. rewrite Hf. simpl.
    unfold start_session. rewrite Hs. reflexivity. }
  cbv zeta. rewrite Hstep. simpl.
  unfold end_session. simpl. rewrite end_session_fresh by exact Hfresh.
  repeat split; assumption.
Qed.

(** Witness: customer 1000 logs in; the draw 4242 is taken by the old
    session, 7 is fresh. *)
Lemma customer_login_logout_witness :
  find (fun r => (r.(u_uid) =? 1000) && String.eqb r.(u_pwd) "pw") accounts.(users) =
    Some (mkUser 1000 "pw" "customer") /\
  (mkUser 1000 "pw" "customer").(u_role) = "customer"%string /\
  pick_session_no [4242; 7] 1000 accounts.(sessions) = Some 7 /\
  fst (snd (handle_login_submit [4242; 7] 20250301 1000 "pw" (mkState None None None, accounts))) =
    mkState (Some 1000) (Some "customer"%string) (Some 7).
Proof.
  split; [reflexivity|]. split; [reflexivity|]. split; [reflexivity|].
  destruct (customer_login_logout [4242; 7] 20250301 20250302 1000 "pw"
              (mkUser 1000 "pw" "customer") 7 (mkState None None None) accounts
              eq_refl eq_refl eq_refl) as [_ [_ [H _]]].
  exact H.
Defined.

(** A login that finds no user leaves state and store as they were; a
    login of a user whose role is not "customer" (a salesperson) sets uid
    and role but starts no session, and the logout that follows changes
    nothing: no session row is written and uid and role stay set. *)
Theorem login_without_session draws when t uid pwd g u :
  (forall usr, find (fun r => (r.(u_uid) =? uid) && String.eqb r.(u_pwd) pwd) u.(users) = Some usr ->
     usr.(u_role) <> "customer"%string) ->
  let st1 := snd (handle_login_submit draws when uid pwd (g, u)) in
  fst (handle_login_submit draws when uid pwd (g, u)) = Ok tt /\
  snd st1 = u /\
  (find (fun r => (r.(u_uid) =? uid) && String.eqb r.(u_pwd) pwd) u.(users) = None ->
     fst st1 = g) /\
  (forall usr, find (fun r => (r.(u_uid) =? uid) && String.eqb r.(u_pwd) pwd) u.(users) = Some usr ->
     fst st1 = mkState (Some uid) (Some usr.(u_role)) g.(st_session_no) /\
     state_end_session t st1 = (Ok tt, st1)).
Proof.
  intros Hrole. cbv zeta.
  destruct (find (fun r => (r.(u_uid) =? uid) && String.eqb r.(u_pwd) pwd) u.(users))
    as [usr|] eqn:Hf.
  - specialize (Hrole usr eq_refl).
    apply find_some in Hf as Hf'. destruct Hf' as [_ Hm].
    apply andb_true_iff in Hm as [Hu _]. apply Z.eqb_eq in Hu.
    assert (Hc : role_is_customer (Some usr.(u_role)) = false)
      by (simpl; now apply String.eqb_neq).
    assert (Hstep : handle_login_submit draws when uid pwd (g, u) =
                    (Ok tt, (mkState (Some uid) (Some usr.(u_role)) g.(st_session_no), u))).
    { unfold handle_login_submit, login. rewrite Hf.
      cbv beta iota zeta delta [state_start_session st_role st_uid st_session_no].
      destruct (role_is_customer (Some (u_role usr))) eqn:E; [congruence|].
      now rewrite Hu. }
    rewrite Hstep. split; [reflexivity|]. split; [reflexivity|]. split; [discriminate|].
    intros usr' E. injection E as <-. split; [reflexivity|].
    unfold state_end_session. cbv beta iota zeta delta [snd st_role st_uid st_session_no].
    now rewrite Hc.
  - unfold handle_login_submit, login. rewrite Hf. simpl.
    split; [reflexivity|]. split; [reflexivity|]. split; [reflexivity|discriminate].
Qed.

(** Witness: the salesperson 9001 logs in and out. *)
Lemma login_without_session_witness :
  (forall usr, find (fun r => (r.(u_uid) =? 9001) && String.eqb r.(u_pwd) "admin") accounts.(users) =
     Some usr -> usr.(u_role) <> "customer"%string) /\
  fst (snd (handle_login_submit [7] 20250301 9001 "admin" (mkState None None None, accounts))) =
    mkState (Some 9001) (Some "sales"%string) None.
Proof.
  assert (Hr : forall usr, find (fun r => (r.(u_uid) =? 9001) && String.eqb r.(u_pwd) "admin")
                 accounts.(users) = Some usr -> usr.(u_role) <> "customer"%string).
  { intros usr H. vm_compute in H. injection H as <-. simpl. discriminate. }
  split; [exact Hr|].
  destruct (login_without_session [7] 20250301 20250302 9001 "admin" (mkState None None None)
              accounts Hr) as [_ [_ [_ H]]].
  exact (proj1 (H _ eq_refl)).
Defined.

(** [top_products_by_views] ranks one row [(pid, count)] per viewed
    product, [count] being its number of view rows, by count descending
    and then pid ascending, and with ties at [k] included it returns the
    first [min(k, rows)] rows and the later rows tied with the last of
    them; [record_view] adds one to the viewed product's count and leaves
    every other count and table as it was. *)
Theorem views_ranking_record k cid s p ts u :
  let rows := sort_rank (view_counts u.(viewed)) in
  let u' := snd (record_view cid s p ts u) in
  let m := Nat.min (Z.to_nat k) (List.length rows) in
  (forall q c, In (q, c) rows <-> In q (map v_pid u.(viewed)) /\ c = view_count u.(viewed) q) /\
  NoDup (map fst rows) /\
  Sorted (fun a b => snd b < snd a \/ (snd a = snd b /\ fst a < fst b)) rows /\
  (1 <= k -> top_products_by_views k true u =
     (Ok (firstn m rows ++ filter (fun r => snd r =? snd (nth (m - 1) rows (0, 0))) (skipn m rows)), u)) /\
  view_count u'.(viewed) p = view_count u.(viewed) p + 1 /\
  (forall q, q <> p -> view_count u'.(viewed) q = view_count u.(viewed) q) /\
  u'.(users) = u.(users) /\ u'.(customers) = u.(customers) /\ u'.(sessions) = u.(sessions).
Proof.
  cbv zeta.
  set (vs := u.(viewed)).
  assert (Hp : Permutation (sort_rank (view_counts vs)) (view_counts vs))
    by apply sort_by_perm.
  assert (Hnd : NoDup (map fst (sort_rank (view_counts vs)))).
  { apply (Permutation_NoDup (Permutation_sym (Permutation_map fst Hp))).
    unfold view_counts. rewrite map_map. simpl. rewrite map_id. apply NoDup_nodup. }
  split; [|split; [exact Hnd|split; [|split; [|split; [|split]]]]].
  - intros q c. split.
    + intros H. apply (Permutation_in _ Hp) in H. unfold view_counts in H.
      apply in_map_iff in H as [q' [E Hq]]. injection E as <- <-.
      split; [now apply nodup_In in Hq|reflexivity].
    + intros [H ->]. apply (Permutation_in _ (Permutation_sym Hp)).
      unfold view_counts. apply in_map_iff. exists q. split; [reflexivity|].
      now apply nodup_In.
  - apply (sorted_strict (fun a b => snd b < snd a \/ (snd a = snd b /\ fst a <= fst b)) _ fst);
      [|exact Hnd|apply sort_rank_sorted].
    intros a b [H|[H1 H2]] Hne; [left; exact H|right; split; [exact H1|lia]].
  - intros Hk. unfold top_products_by_views. f_equal. f_equal.
    apply top_rows_ties; [exact Hk|].
    apply (sorted_weaken (fun a b => snd b < snd a \/ (snd a = snd b /\ fst a <= fst b)));
      [intros a b [H|[H _]]; lia|apply sort_rank_sorted].
  - subst vs. unfold view_count. simpl. rewrite filter_app. simpl. rewrite Z.eqb_refl, length_app.
    simpl. lia.
  - intros q Hq. subst vs. unfold view_count. simpl. rewrite filter_app. simpl.
    replace (p =? q) with false by (symmetry; apply Z.eqb_neq; congruence).
    now rewrite app_nil_r.
  - repeat split.
Qed.

(** * [generate_markdown_table] (utils/pure.py) *)

(** The exceptions it raises. *)
Inductive md_error :=
| MdValueError (msg : string)
| MdKeyError (key : string).

Definition newline : string := String (ascii_of_nat 10) EmptyString.

(** [align_map[a]], a [KeyError] on any other key. *)
Definition align_map (a : string) : option string :=
  if String.eqb a "l" then Some ":---"%string
  else if String.eqb a "c" then Some ":---:"%string
  else if String.eqb a "r" then Some "---:"%string
  else None.

(** [align_map[a] for a in aligns], evaluated in order. *)
Fixpoint align_codes (aligns : list string) : md_error + list string :=
  match aligns with
  | [] => inr []
  | a :: rest =>
      match align_map a with
      | None => inl (MdKeyError a)
      | Some c => match align_codes rest with
                  | inl e => inl e
                  | inr cs => inr (c :: cs)
                  end
      end
  end.

(** ["| " + " | ".join(cells) + " |"] *)
Definition table_line (cells : list string) : string :=
  ("| " ++ String.concat " | " cells ++ " |")%string.

(** [if not headers: headers, rows = rows[0], rows[1:]] on a non-empty
    [rows = r0 :: rest]. *)
Definition take_header (headers : option (list string)) (r0 : list string)
    (rest : list (list string)) : list string * list (list string) :=
  match headers with
  | None | Some [] => (r0, rest)
  | Some h => (h, r0 :: rest)
  end.

(** The cells are the strings [str] makes of what the callers pass. *)
Definition generate_markdown_table (headers : option (list string))
    (rows : list (list string)) (aligns : option (list string)) : md_error + string :=
  match rows with
  | [] => inr ""%string
  | r0 :: rest =>
    let (headers, rows) := take_header headers r0 rest in
    let num_cols := List.length headers in
    let aligns :=
      match aligns with
      | None => inr (repeat "c"%string num_cols)
      | Some al =>
          if Nat.eqb (List.length al) num_cols then inr al
          else inl (MdValueError "Length of aligns must match number of headers.")
      end in
    match aligns with
    | inl e => inl e
    | inr al =>
        match align_codes al with
        | inl e => inl e
        | inr codes =>
            inr (String.concat newline
                   (table_line headers :: table_line codes :: map table_line rows))
        end
    end
  end.

(** Python's [s.split("\n")], to read the result back line by line. *)
Fixpoint split_on (c : ascii) (s : string) : list string :=
  match s with
  | EmptyString => [EmptyString]
  | String x rest =>
      if Ascii.eqb x c then EmptyString :: split_on c rest
      else match split_on c rest with
           | w :: ws => String x w :: ws
           | [] => [String x EmptyString]
           end
  end.

Definition lines (s : string) : list string := split_on (ascii_of_nat 10) s.

Fixpoint has_char (c : ascii) (s : string) : bool :=
  match s with
  | EmptyString => false
  | String x rest => Ascii.eqb x c || has_char c rest
  end.

(** ** Properties of [generate_markdown_table] *)

Lemma split_on_nonempty c s : split_on c s <> [].
Proof.
  induction s as [|x s IH]; simpl; [discriminate|].
  destruct (Ascii.eqb x c); [discriminate|]. destruct (split_on c s); discriminate.
Qed.

Lemma split_on_app c w s :
  has_char c w = false ->
  split_on c (w ++ s) =
  match split_on c s with v :: vs => (w ++ v)%string :: vs | [] => [w] end.
Proof.
  induction w as [|x w IH]; simpl; intros H.
  - destruct (split_on c s) eqn:E; [now apply split_on_nonempty in E|reflexivity].
  - apply orb_false_iff in H as [Hx Hw]. rewrite Hx, IH by exact Hw.
    destruct (split_on c s); reflexivity.
Qed.

Lemma string_app_nil_r (w : string) : (w ++ "")%string = w.
Proof. induction w as [|x w IH]; simpl; [reflexivity|now rewrite IH]. Qed.

Lemma has_char_app c s1 s2 :
  has_char c (s1 ++ s2) = has_char c s1 || has_char c s2.
Proof.
  induction s1 as [|x s1 IH]; simpl; [reflexivity|]. now rewrite IH, orb_assoc.
Qed.

Lemma has_char_concat c sep l :
  has_char c sep = false ->
  (forall w, In w l -> has_char c w = false) ->
  has_char c (String.concat sep l) = false.
Proof.
  intros Hs. induction l as [|w l IH]; intros Hl; [reflexivity|].
  destruct l as [|w' l].
  - apply Hl; left; reflexivity.
  - change (String.concat sep (w :: w' :: l)) with (w ++ sep ++ String.concat sep (w' :: l))%string.
    rewrite !has_char_app, Hs, IH, (Hl w) by (simpl in *; auto); reflexivity.
Qed.

Lemma split_on_concat c l :
  l <> [] ->
  (forall w, In w l -> has_char c w = false) ->
  split_on c (String.concat (String c EmptyString) l) = l.
Proof.
  induction l as [|w l IH]; intros Hne Hl; [congruence|].
  destruct l as [|w' l].
  - simpl String.concat. rewrite <- (string_app_nil_r w) at 1.
    rewrite split_on_app by (apply Hl; left; reflexivity).
    simpl. now rewrite string_app_nil_r.
  - change (String.concat (String c EmptyString) (w :: w' :: l))
      with (w ++ String c (String.concat (String c EmptyString) (w' :: l)))%string.
    rewrite split_on_app by (apply Hl; left; reflexivity).
    cbn [split_on]. rewrite Ascii.eqb_refl.
    rewrite IH; [now rewrite string_app_nil_r|discriminate|].
    intros v Hv; apply Hl; right; exact Hv.
Qed.

Lemma table_line_no_char c cells :
  has_char c " | " = false -> has_char c "| " = false -> has_char c " |" = false ->
  (forall w, In w cells -> has_char c w = false) ->
  has_char c (table_line cells) = false.
Proof.
  intros H1 H2 H3 Hc. unfold table_line.
  rewrite !has_char_app, H2, H3, has_char_concat by assumption. reflexivity.
Qed.

Lemma align_codes_ok al codes :
  align_codes al = inr codes ->
  List.length codes = List.length al /\
  (forall x, In x codes -> has_char (ascii_of_nat 10) x = false).
Proof.
  revert codes. induction al as [|a al IH]; simpl; intros codes H.
  - injection H as <-. split; [reflexivity|]. intros x [].
  - destruct (align_map a) as [cd|] eqn:Ea; [|discriminate].
    destruct (align_codes al) as [e|cs] eqn:Ec; [discriminate|].
    injection H as <-. destruct (IH cs eq_refl) as [Hl Hx].
    split; [simpl; now rewrite Hl|].
    intros x [<-|Hin]; [|now apply Hx].
    unfold align_map in Ea.
    destruct (String.eqb a "l"); [injection Ea as <-; reflexivity|].
    destruct (String.eqb a "c"); [injection Ea as <-; reflexivity|].
    destruct (String.eqb a "r"); [injection Ea as <-; reflexivity|discriminate].
Qed.

Lemma align_codes_center n :
  align_codes (repeat "c"%string n) = inr (repeat ":---:"%string n).
Proof. induction n as [|n IH]; simpl; [reflexivity|]. now rewrite IH. Qed.

Lemma align_codes_first_bad al1 a al2 :
  (forall x, In x al1 -> align_map x <> None) -> align_map a = None ->
  align_codes (al1 ++ a :: al2) = inl (MdKeyError a).
Proof.
  induction al1 as [|x al1 IH]; simpl; intros Hok Ha.
  - now rewrite Ha.
  - destruct (align_map x) eqn:Ex.
    + rewrite IH; auto.
    + exfalso. apply (Hok x); auto.
Qed.

Lemma take_header_cells headers r0 rest (P : string -> Prop) :
  (forall row, In row (r0 :: rest) -> forall cell, In cell row -> P cell) ->
  (forall h, headers = Some h -> forall cell, In cell h -> P cell) ->
  (forall cell, In cell (fst (take_header headers r0 rest)) -> P cell) /\
  (forall row, In row (snd (take_header headers r0 rest)) -> forall cell, In cell row -> P cell).
Proof.
  intros Hr Hh. destruct headers as [[|h hs]|]; simpl; split.
  - apply Hr; left; reflexivity.
  - intros row Hin; apply Hr; right; exact Hin.
  - apply (Hh (h :: hs) eq_refl).
  - exact Hr.
  - apply Hr; left; reflexivity.
  - intros row Hin; apply Hr; right; exact Hin.
Qed.

(** [generate_markdown_table] on empty rows returns the empty string; with
    rows, an [aligns] list whose length differs from the header's raises
    [ValueError], and one of the right length raises [KeyError] on its first
    code outside ["l"], ["c"], ["r"]. *)
Theorem markdown_table_errors headers aligns r0 rest :
  generate_markdown_table headers [] aligns = inr ""%string /\
  (forall al, List.length al <> List.length (fst (take_header headers r0 rest)) ->
     generate_markdown_table headers (r0 :: rest) (Some al) =
       inl (MdValueError "Length of aligns must match number of headers.")) /\
  (forall al1 a al2,
     List.length (al1 ++ a :: al2) = List.length (fst (take_header headers r0 rest)) ->
     (forall x, In x al1 -> align_map x <> None) -> align_map a = None ->
     generate_markdown_table headers (r0 :: rest) (Some (al1 ++ a :: al2)) =
       inl (MdKeyError a)).
Proof.
  split; [reflexivity|]. unfold generate_markdown_table.
  destruct (take_header headers r0 rest) as [hd body]; simpl fst.
  split.
  - intros al Hl. apply Nat.eqb_neq in Hl. now rewrite Hl.
  - intros al1 a al2 Hl Hok Ha. apply Nat.eqb_eq in Hl. rewrite Hl.
    now rewrite align_codes_first_bad.
Qed.

(** When [generate_markdown_table] returns a table and no cell holds a
    newline, the table splits into the header line, the alignment line (one
    code per header, the codes of [aligns], all centred when [aligns] is
    [None]) and one line per
    data row, each ["| " + " | ".join(cells) + " |"]. *)
Theorem markdown_table_lines headers r0 rest aligns s :
  generate_markdown_table headers (r0 :: rest) aligns = inr s ->
  (forall row, In row (r0 :: rest) -> forall cell, In cell row ->
     has_char (ascii_of_nat 10) cell = false) ->
  (forall h, headers = Some h -> forall cell, In cell h ->
     has_char (ascii_of_nat 10) cell = false) ->
  exists codes,
    lines s = table_line (fst (take_header headers r0 rest)) :: table_line codes ::
              map table_line (snd (take_header headers r0 rest)) /\
    List.length (lines s) = (2 + List.length (snd (take_header headers r0 rest)))%nat /\
    List.length codes = List.length (fst (take_header headers r0 rest)) /\
    (forall al, aligns = Some al -> align_codes al = inr codes) /\
    (aligns = None ->
     codes = repeat ":---:"%string (List.length (fst (take_header headers r0 rest)))).
Proof.
  intros H Hr Hh.
  destruct (take_header_cells headers r0 rest _ Hr Hh) as [Hhd Hbody].
  unfold generate_markdown_table in H.
  destruct (take_header headers r0 rest) as [hd body]; cbn [fst snd] in *.
  cbv beta iota zeta in H.
  assert (Hsep : forall codes,
    List.length codes = List.length hd ->
    (forall x, In x codes -> has_char (ascii_of_nat 10) x = false) ->
    lines (String.concat newline
             (table_line hd :: table_line codes :: map table_line body)) =
      table_line hd :: table_line codes :: map table_line body).
  { intros codes _ Hc. unfold lines, newline. apply split_on_concat; [discriminate|].
    intros w [<-|[<-|Hw]].
    - apply table_line_no_char; auto.
    - apply table_line_no_char; auto.
    - apply in_map_iff in Hw as [row [<- Hrow]].
      apply table_line_no_char; auto. intros w Hw. exact (Hbody row Hrow w Hw). }
  destruct aligns as [al|].
  - destruct (Nat.eqb (List.length al) (List.length hd)) eqn:En; [|discriminate].
    apply Nat.eqb_eq in En.
    destruct (align_codes al) as [e|codes] eqn:Ec; [discriminate|].
    assert (Hs : s = String.concat newline
                       (table_line hd :: table_line codes :: map table_line body))
      by (injection H; intros E; exact (eq_sym E)).
    subst s. destruct (align_codes_ok al codes Ec) as [Hl Hc].
    exists codes. rewrite (Hsep codes); [|congruence|exact Hc].
    split; [reflexivity|]. split; [simpl; now rewrite length_map|].
    split; [congruence|]. split; [|discriminate].
    intros al' Hal; injection Hal as <-; exact Ec.
  - rewrite align_codes_center in H.
    assert (Hs : s = String.concat newline
                       (table_line hd :: table_line (repeat ":---:"%string (List.length hd))
                          :: map table_line body))
      by (injection H; intros E; exact (eq_sym E)).
    subst s.
    exists (repeat ":---:"%string (List.length hd)).
    rewrite Hsep; [| now rewrite repeat_length |].
    + split; [reflexivity|]. split; [simpl; now rewrite length_map|].
      split; [apply repeat_length|]. split; [discriminate|reflexivity].
    + intros x Hx. apply repeat_spec in Hx as ->. reflexivity.
Qed.

(** The profile table of [BaseScreen]: no header, two left-aligned columns. *)
Lemma markdown_table_lines_witness :
  exists s,
    generate_markdown_table None
      [["User ID"; "1000"]; ["Name"; "Ann"]; ["Role"; "Customer"]]%string
      (Some ["l"; "l"]%string) = inr s /\
    lines s = ["| User ID | 1000 |"; "| :--- | :--- |"; "| Name | Ann |";
               "| Role | Customer |"]%string.
Proof.
  eexists. split; [reflexivity|].
  destruct (markdown_table_lines None ["User ID"; "1000"]%string
              [["Name"; "Ann"]; ["Role"; "Customer"]]%string (Some ["l"; "l"]%string) _
              eq_refl) as [codes [Hl [_ [_ [Hc _]]]]].
  - intros row Hrow cell Hcell. simpl in Hrow.
    repeat (destruct Hrow as [<-|Hrow]; [simpl in Hcell;
      repeat (destruct Hcell as [<-|Hcell]; [reflexivity|]); destruct Hcell|]).
    destruct Hrow.
  - intros h Hh. discriminate.
  - specialize (Hc _ eq_refl). vm_compute in Hc. injection Hc as <-.
    rewrite Hl. vm_compute. reflexivity.
Defined.

(** * Weekly sales summary (crud.py, lines 736-771) *)

(** The dict the function returns.  [float(...)] of the total is the exact
    sum of the exact prices; the average is the exact quotient. *)
Record sales_summary := mkSummary {
  distinct_orders : Z;
  distinct_products_sold : Z;
  distinct_customers : Z;
  avg_amount_per_customer : QArith_base.Q;
  total_sales_amount : Z
}.

(** [COUNT(DISTINCT x)] *)
Definition count_distinct (xs : list Z) : Z :=
  Z.of_nat (List.length (nodup Z.eq_dec xs)).

Section WeeklySales.

(** [date(o.odate)]: the calendar day of an order time, as a day number;
    [as_of] is a day number too, so [as_of - timedelta(days=7)] is
    [as_of - 7]. *)
Variable day_of : Z -> Z.

(** [WHERE date(?) <= date(o.odate) AND date(o.odate) <= date(?)] *)
Definition in_window (start_date as_of : Z) (o : order) : bool :=
  (start_date <=? day_of o.(o_odate)) && (day_of o.(o_odate) <=? as_of).

(** [FROM orders o JOIN orderlines ol ON ol.ono = o.ono WHERE ...] *)
Definition sales_join (start_date as_of : Z) (d : db) : list (order * orderline) :=
  List.concat
    (map (fun o => map (fun l => (o, l))
                       (filter (fun l => l.(l_ono) =? o.(o_ono)) d.(orderlines)))
         (filter (in_window start_date as_of) d.(orders))).

Definition weekly_sales_summary (as_of : Z) : M sales_summary :=
  fun d =>
    let start_date := as_of - 7 in
    let js := sales_join start_date as_of d in
    let distinct_orders := count_distinct (map (fun j => (fst j).(o_ono)) js) in
    let distinct_products_sold := count_distinct (map (fun j => (snd j).(l_pid)) js) in
    let distinct_customers := count_distinct (map (fun j => (fst j).(o_cid)) js) in
    let total_sales_amount :=
      fold_right (fun j acc => (snd j).(l_qty) * (snd j).(l_uprice) + acc) 0 js in
    let avg_amount_per_customer :=
      if distinct_customers >? 0
      then QArith_base.Qdiv (QArith_base.inject_Z total_sales_amount)
                            (QArith_base.inject_Z distinct_customers)
      else QArith_base.inject_Z 0 in
    (Ok (mkSummary distinct_orders distinct_products_sold distinct_customers
                   avg_amount_per_customer total_sales_amount), d).

End WeeklySales.

(** ** Properties of [weekly_sales_summary] *)

Lemma count_distinct_same xs ys :
  (forall x, In x xs <-> In x ys) -> count_distinct xs = count_distinct ys.
Proof.
  intros H. unfold count_distinct. f_equal. apply Nat.le_antisymm.
  - apply NoDup_incl_length; [apply NoDup_nodup|].
    intros x Hx. apply nodup_In in Hx. apply nodup_In, H, Hx.
  - apply NoDup_incl_length; [apply NoDup_nodup|].
    intros x Hx. apply nodup_In in Hx. apply nodup_In, H, Hx.
Qed.

Lemma count_distinct_nonneg xs : 0 <= count_distinct xs.
Proof. unfold count_distinct. lia. Qed.


Lemma sales_join_In day_of start_date as_of d o l :
  In (o, l) (sales_join day_of start_date as_of d) <->
  In o d.(orders) /\ in_window day_of start_date as_of o = true /\
  In l d.(orderlines) /\ l.(l_ono) = o.(o_ono).
Proof.
  unfold sales_join. rewrite in_concat. split.
  - intros [xs [Hxs Hin]]. apply in_map_iff in Hxs as [o' [<- Ho']].
    apply filter_In in Ho' as [Ho' Hw].
    apply in_map_iff in Hin as [l' [Heq Hl']]. injection Heq as -> ->.
    apply filter_In in Hl' as [Hl' Hono]. apply Z.eqb_eq in Hono. tauto.
  - intros [Ho [Hw [Hl Hono]]].
    exists (map (fun l => (o, l)) (filter (fun l => l.(l_ono) =? o.(o_ono)) d.(orderlines))).
    split.
    + apply in_map_iff. exists o. split; [reflexivity|]. now apply filter_In.
    + apply in_map_iff. exists l. split; [reflexivity|].
      apply filter_In. split; [exact Hl|]. now apply Z.eqb_eq.
Qed.


Lemma find_order_nodup o os :
  NoDup (map o_ono os) -> In o os -> find_order o.(o_ono) os = Some o.
Proof.
  induction os as [|o' os IH]; simpl; intros Hnd Hin; [contradiction|].
  inversion Hnd as [|x xs Hnot Hnd']; subst.
  unfold find_order; simpl. destruct Hin as [<-|Hin].
  - now rewrite Z.eqb_refl.
  - destruct (o_ono o' =? o_ono o) eqn:E.
    + apply Z.eqb_eq in E. exfalso. apply Hnot. rewrite E. now apply in_map.
    + now apply IH.
Qed.


Lemma sales_join_map_order {B} (f : order -> B) day_of start_date as_of d :
  forall b,
  In b (map (fun j => f (fst j)) (sales_join day_of start_date as_of d)) <->
  In b (map f (filter (fun o => existsb (fun l => l.(l_ono) =? o.(o_ono)) d.(orderlines))
                      (filter (in_window day_of start_date as_of) d.(orders)))).
Proof.
  intros b. rewrite !in_map_iff. split.
  - intros [[o l] [<- Hj]]. apply sales_join_In in Hj as (Ho & Hw & Hl & Hono).
    exists o. split; [reflexivity|]. apply filter_In. split; [now apply filter_In|].
    apply existsb_exists. exists l. split; [exact Hl|]. now apply Z.eqb_eq.
  - intros [o [<- Ho]]. apply filter_In in Ho as [Ho Hex].
    apply filter_In in Ho as [Ho Hw]. apply existsb_exists in Hex as [l [Hl Hono]].
    exists (o, l). split; [reflexivity|]. apply sales_join_In.
    apply Z.eqb_eq in Hono. tauto.
Qed.



(** Adding an order to the store leaves [weekly_sales_summary] as it was
    when the order's day lies outside [as_of - 7 .. as_of] or no order line
    carries its number: such an order never counts, not even as a customer. *)
Theorem weekly_sales_summary_ignores_order day_of as_of d o :
  in_window day_of (as_of - 7) as_of o = false \/ ~ In o.(o_ono) (map l_ono d.(orderlines)) ->
  weekly_sales_summary day_of as_of (set_orders d (d.(orders) ++ [o])) =
  (fst (weekly_sales_summary day_of as_of d), set_orders d (d.(orders) ++ [o])).
Proof.
  intros H.
  assert (Hj : sales_join day_of (as_of - 7) as_of (set_orders d (d.(orders) ++ [o])) =
               sales_join day_of (as_of - 7) as_of d).
  { unfold sales_join. cbn [orders orderlines set_orders]. rewrite filter_app.
    rewrite map_app, concat_app. simpl.
    destruct (in_window day_of (as_of - 7) as_of o) eqn:Ew; simpl.
    - destruct H as [H|H]; [congruence|].
      replace (filter (fun l => l_ono l =? o_ono o) (orderlines d)) with (@nil orderline).
      + simpl. now rewrite !app_nil_r.
      + symmetry. apply filter_all_false.
        intros l Hl. apply Z.eqb_neq. intros He. apply H. rewrite <- He. now apply in_map.
    - now rewrite !app_nil_r. }
  unfold weekly_sales_summary. rewrite Hj. reflexivity.
Qed.

Lemma nodup_length_le (xs : list Z) : (List.length (nodup Z.eq_dec xs) <= List.length xs)%nat.
Proof.
  apply NoDup_incl_length; [apply NoDup_nodup|]. intros x Hx. now apply nodup_In in Hx.
Qed.

Lemma NoDup_map_filter {A B} (f : A -> B) (g : A -> bool) l :
  NoDup (map f l) -> NoDup (map f (filter g l)).
Proof.
  induction l as [|a l IH]; simpl; intros Hnd; [constructor|].
  inversion Hnd as [|x xs Hnot Hnd']; subst.
  destruct (g a); simpl; [|now apply IH].
  constructor; [|now apply IH].
  intros Hin. apply Hnot. apply in_map_iff in Hin as [y [Hy Hin]].
  apply filter_In in Hin as [Hin _]. rewrite <- Hy. now apply in_map.
Qed.

(** When order numbers are unique in [orders] (the table's key),
    [weekly_sales_summary]'s [distinct_orders] is the number of orders of
    the window with at least one line, and there are at most as many
    distinct customers as distinct orders, and at most as many distinct
    orders as orders in the window. *)
Theorem weekly_sales_customers_le_orders day_of as_of d :
  NoDup (map o_ono d.(orders)) ->
  let win := filter (in_window day_of (as_of - 7) as_of) d.(orders) in
  let sold := filter (fun o => existsb (fun l => l.(l_ono) =? o.(o_ono)) d.(orderlines)) win in
  exists s,
    fst (weekly_sales_summary day_of as_of d) = Ok s /\
    s.(distinct_orders) = Z.of_nat (List.length sold) /\
    0 <= s.(distinct_customers) <= s.(distinct_orders) /\
    s.(distinct_orders) <= Z.of_nat (List.length win).
Proof.
  intros Hnd win sold. eexists. split; [reflexivity|].
  cbn [distinct_orders distinct_customers].
  assert (Hs : NoDup (map o_ono sold))
    by (unfold sold, win; now apply NoDup_map_filter, NoDup_map_filter).
  assert (Ho : count_distinct (map (fun j => o_ono (fst j)) (sales_join day_of (as_of - 7) as_of d)) =
               Z.of_nat (List.length sold)).
  { rewrite (count_distinct_same _ (map o_ono sold)) by apply sales_join_map_order.
    unfold count_distinct. now rewrite nodup_fixed_point, length_map by exact Hs. }
  assert (Hc : count_distinct (map (fun j => o_cid (fst j)) (sales_join day_of (as_of - 7) as_of d)) =
               count_distinct (map o_cid sold))
    by (apply count_distinct_same, sales_join_map_order).
  rewrite Ho, Hc. unfold count_distinct.
  pose proof (nodup_length_le (map o_cid sold)) as Hle. rewrite length_map in Hle.
  pose proof (filter_length_le (fun o => existsb (fun l => l.(l_ono) =? o.(o_ono)) d.(orderlines)) win)
    as Hw.
  fold sold in Hw. lia.
Qed.

(** Orders at second [t] of day [t / 86400]: order 1 of customer 7 on day
    10, order 2 of customer 8 on day 3 (two lines), order 3 of customer 7
    on day 3 without lines, order 4 of customer 9 on day 2. *)
Definition db_weekly : db :=
  mkDb []
       []
       [mkOrder 1 7 1 (10 * 86400 + 5) "a"%string; mkOrder 2 8 1 (3 * 86400) "b"%string;
        mkOrder 3 7 2 (3 * 86400 + 60) "a"%string; mkOrder 4 9 1 (2 * 86400 + 86399) "c"%string]
       [mkOrderLine 1 1 11 2 5; mkOrderLine 2 1 12 1 20; mkOrderLine 2 2 11 1 5;
        mkOrderLine 4 1 13 3 3]
       [].

(** Witness: on day 10 the window is days 3 .. 10; orders 1 and 2 count,
    order 3 has no line and order 4 is on day 2. *)
Lemma weekly_sales_customers_le_orders_witness :
  NoDup (map o_ono db_weekly.(orders)) /\
  exists s,
    fst (weekly_sales_summary (fun t => t / 86400) 10 db_weekly) = Ok s /\
    s.(distinct_orders) = 2 /\ 0 <= s.(distinct_customers) <= s.(distinct_orders) /\
    s.(distinct_orders) <= 3.
Proof.
  assert (Hnd : NoDup (map o_ono db_weekly.(orders))).
  { simpl. repeat constructor; simpl; intuition discriminate. }
  split; [exact Hnd|].
  destruct (weekly_sales_customers_le_orders (fun t => t / 86400) 10 db_weekly Hnd)
    as [s [Hs [Ho [Hc Hw]]]].
  exists s. split; [exact Hs|]. vm_compute in Ho, Hw. split; [exact Ho|]. split; [exact Hc|].
  exact Hw.
Defined.

(** Witness: order 5 of customer 9 on day 2, outside the window of day
    10, leaves the summary unchanged. *)
Lemma weekly_sales_summary_ignores_order_witness :
  in_window (fun t => t / 86400) (10 - 7) 10 (mkOrder 5 9 3 (2 * 86400) "c"%string) = false /\
  weekly_sales_summary (fun t => t / 86400) 10
    (set_orders db_weekly (db_weekly.(orders) ++ [mkOrder 5 9 3 (2 * 86400) "c"%string])) =
  (fst (weekly_sales_summary (fun t => t / 86400) 10 db_weekly),
   set_orders db_weekly (db_weekly.(orders) ++ [mkOrder 5 9 3 (2 * 86400) "c"%string])).
Proof.
  split; [vm_compute; reflexivity|].
  apply weekly_sales_summary_ignores_order. left. vm_compute. reflexivity.
Defined.

(** ** Removing from and clearing the cart (crud.py, lines 556-573) *)

Lemma nodup_map_filter_neq {A} (f : A -> Z) p l :
  nodup Z.eq_dec (map f (filter (fun r => negb (f r =? p)) l)) =
  filter (fun q => negb (q =? p)) (nodup Z.eq_dec (map f l)).
Proof.
  induction l as [|a l IH]; simpl; [reflexivity|].
  assert (Hiff : f a <> p ->
    (In (f a) (map f (filter (fun r => negb (f r =? p)) l)) <-> In (f a) (map f l))).
  { intros Hne. rewrite !in_map_iff. split.
    - intros [x [Hx Hin]]. apply filter_In in Hin. exists x. tauto.
    - intros [x [Hx Hin]]. exists x. split; [exact Hx|]. apply filter_In.
      split; [exact Hin|]. rewrite Hx. now apply Z.eqb_neq in Hne as ->. }
  destruct (f a =? p) eqn:E; simpl.
  - destruct (in_dec Z.eq_dec (f a) (map f l)); [exact IH|]. simpl. now rewrite E, IH.
  - apply Z.eqb_neq in E. simpl.
    destruct (in_dec Z.eq_dec (f a) (map f (filter (fun r => negb (f r =? p)) l))) as [H1|H1];
    destruct (in_dec Z.eq_dec (f a) (map f l)) as [H2|H2].
    + exact IH.
    + exfalso. apply H2, (Hiff E), H1.
    + exfalso. apply H1, (Hiff E), H2.
    + simpl. apply Z.eqb_neq in E. rewrite E. simpl. now rewrite IH.
Qed.

Lemma group_cart_other_customer c cid keep cs :
  c <> cid ->
  (forall r, r.(c_cid) = c -> keep r = true) ->
  group_cart c (filter keep cs) = group_cart c cs.
Proof.
  intros Hne Hk. unfold group_cart. rewrite filter_filter'.
  rewrite (filter_ext_in _ (fun r => c_cid r =? c)); [reflexivity|].
  intros r _. destruct (c_cid r =? c) eqn:E; [|now rewrite andb_false_r].
  apply Z.eqb_eq in E. now rewrite Hk.
Qed.

(** [remove_from_cart(cid, s, p)] drops product [p] from the cart
    [list_cart] shows [cid] (every other product keeps its summed
    quantity) and [clear_cart(cid, s)] leaves that cart empty; neither
    call changes the cart of another customer or any other table, and the
    session number is not used. *)
Theorem remove_clear_cart cid s p d :
  let d1 := snd (remove_from_cart cid s p d) in
  let d2 := snd (clear_cart cid s d) in
  fst (remove_from_cart cid s p d) = Ok tt /\ fst (clear_cart cid s d) = Ok tt /\
  group_cart cid d1.(cart) = filter (fun r => negb (fst r =? p)) (group_cart cid d.(cart)) /\
  group_cart cid d2.(cart) = [] /\
  (forall c, c <> cid -> group_cart c d1.(cart) = group_cart c d.(cart) /\
                         group_cart c d2.(cart) = group_cart c d.(cart)) /\
  (forall s', d1 = snd (remove_from_cart cid s' p d) /\ d2 = snd (clear_cart cid s' d)) /\
  d1.(products) = d.(products) /\ d1.(orders) = d.(orders) /\
  d1.(orderlines) = d.(orderlines) /\ d1.(search) = d.(search) /\
  d2.(products) = d.(products) /\ d2.(orders) = d.(orders) /\
  d2.(orderlines) = d.(orderlines) /\ d2.(search) = d.(search).
Proof.
  cbn zeta. unfold remove_from_cart, clear_cart, delete_pair, delete_customer_cart.
  cbn [fst snd set_cart cart products orders orderlines search].
  split; [reflexivity|]. split; [reflexivity|].
  split.
  { unfold group_cart. rewrite filter_filter'.
    rewrite (filter_ext_in _ (fun r => (c_cid r =? cid) && negb (c_pid r =? p))).
    2:{ intros r _. unfold pair_row.
        destruct (c_cid r =? cid), (c_pid r =? p); reflexivity. }
    rewrite <- filter_filter'.
    set (rs := filter (fun r => c_cid r =? cid) (cart d)).
    rewrite (nodup_map_filter_neq c_pid p rs), filter_map_swap. cbn [fst].
    apply map_ext_in. intros q Hq. apply filter_In in Hq as [_ Hq].
    apply negb_true_iff, Z.eqb_neq in Hq.
    f_equal. rewrite filter_filter'. f_equal. apply filter_ext_in. intros r _.
    destruct (c_pid r =? q) eqn:E; [|now rewrite andb_false_r].
    apply Z.eqb_eq in E. subst q. apply Z.eqb_neq in Hq. now rewrite Hq. }
  split.
  { unfold group_cart. now rewrite filter_cid_cleared. }
  split.
  { intros c Hne. split; apply (group_cart_other_customer c cid); auto; intros r Hr.
    - unfold pair_row. rewrite Hr. apply Z.eqb_neq in Hne. now rewrite Hne.
    - rewrite Hr. apply Z.eqb_neq in Hne. now rewrite Hne. }
  split; [intros s'; split; reflexivity|].
  repeat split.
Qed.

(** * The past-orders screen (views/scr_past_orders.py, lines 59-156) *)

(** The screen's reactive [page_idx] and [page_cnt], and the orders its
    table shows ([self._orders]). *)
Record orders_screen := mkScreen {
  page_idx : Z;
  page_cnt : Z;
  shown : list order
}.

(** [_load_orders(page)]: one [list_orders(uid, page)] (page size 5); the
    per-order totals it also fetches only read the store. *)
Definition load_orders (uid page : Z) (sc : orders_screen) : M orders_screen :=
  fun d =>
    match list_orders uid page 5 d with
    | (Ok (orders, total), d') =>
        (Ok (mkScreen sc.(page_idx) (past_orders_page_cnt total) orders), d')
    | (Err e, d') => (Err e, d')
    | (Diverge, d') => (Diverge, d')
    end.

(** [self.page_idx = new]: a reactive attribute calls [watch_page_idx]
    only when the value changes, and the watcher loads that page. *)
Definition set_page_idx (uid new : Z) (sc : orders_screen) : M orders_screen :=
  if new =? sc.(page_idx) then ret sc
  else load_orders uid new (mkScreen new sc.(page_cnt) sc.(shown)).

Definition handle_prev (uid : Z) (sc : orders_screen) : M orders_screen :=
  if sc.(page_idx) >? 1 then set_page_idx uid (sc.(page_idx) - 1) sc else ret sc.

Definition handle_next (uid : Z) (sc : orders_screen) : M orders_screen :=
  if sc.(page_idx) <? sc.(page_cnt) then set_page_idx uid (sc.(page_idx) + 1) sc else ret sc.

Definition handle_page_input (uid : Z) (value : string) (sc : orders_screen) : M orders_screen :=
  let v := list_ascii_of_string value in
  if isdigit v then
    let new_idx := Z.max 1 (Z.min (digits_value v) sc.(page_cnt)) in
    if negb (new_idx =? sc.(page_idx)) then set_page_idx uid new_idx sc else ret sc
  else ret sc.

(** [handle_refresh]: [self._load_orders(1)]. *)
Definition handle_refresh (uid : Z) (sc : orders_screen) : M orders_screen :=
  load_orders uid 1 sc.

Inductive screen_event :=
| PressPrev
| PressNext
| PageInput (value : string).

Definition screen_step (uid : Z) (e : screen_event) : orders_screen -> M orders_screen :=
  match e with
  | PressPrev => handle_prev uid
  | PressNext => handle_next uid
  | PageInput v => handle_page_input uid v
  end.

(** The screen agrees with the store: the page index is within
    [1 .. page_cnt], [page_cnt] is [max(ceil(total / 5), 1)] and the table
    shows page [page_idx] of [list_orders]. *)
Definition screen_consistent (uid : Z) (sc : orders_screen) (d : db) : Prop :=
  let total := Z.of_nat (List.length (filter (fun o => o.(o_cid) =? uid) d.(orders))) in
  1 <= sc.(page_idx) <= sc.(page_cnt) /\
  sc.(page_cnt) = past_orders_page_cnt total /\
  fst (list_orders uid sc.(page_idx) 5 d) = Ok (sc.(shown), total).

(** ** Properties of the past-orders screen *)

Lemma load_orders_eq uid page sc d :
  load_orders uid page sc d =
  (Ok (mkScreen sc.(page_idx)
        (past_orders_page_cnt (Z.of_nat (List.length (filter (fun o => o.(o_cid) =? uid) d.(orders)))))
        (limit_offset 5 (Z.max (page - 1) 0 * 5)
           (sort_odate_desc (filter (fun o => o.(o_cid) =? uid) d.(orders))))), d).
Proof. reflexivity. Qed.

Lemma set_page_idx_consistent uid new sc d :
  new <> sc.(page_idx) -> 1 <= new <= sc.(page_cnt) -> screen_consistent uid sc d ->
  exists sc', set_page_idx uid new sc d = (Ok sc', d) /\
              sc'.(page_idx) = new /\ screen_consistent uid sc' d.
Proof.
  unfold screen_consistent. cbv zeta. intros Hne Hr [Hi [Hc Hl]]. unfold set_page_idx.
  replace (new =? page_idx sc) with false by (symmetry; now apply Z.eqb_neq).
  rewrite load_orders_eq. eexists. split; [reflexivity|]. cbn [page_idx page_cnt shown].
  rewrite Hc in Hr. split; [reflexivity|]. split; [lia|]. split; reflexivity.
Qed.

Lemma list_orders_page_nonempty uid page d :
  let total := Z.of_nat (List.length (filter (fun o => o.(o_cid) =? uid) d.(orders))) in
  1 <= total -> 1 <= page <= past_orders_page_cnt total ->
  exists rows, fst (list_orders uid page 5 d) = Ok (rows, total) /\ rows <> [].
Proof.
  intros total Ht Hp. unfold list_orders. cbn [fst]. fold total.
  set (mine := filter (fun o => o.(o_cid) =? uid) d.(orders)) in *.
  eexists. split; [reflexivity|].
  assert (Hlen : List.length (sort_odate_desc mine) = List.length mine)
    by (apply Permutation_length, sort_by_perm).
  unfold past_orders_page_cnt in Hp.
  pose proof (Z.mul_div_le (total + 4) 5 ltac:(lia)).
  assert (Hq : 1 <= (total + 4) / 5) by (apply Z.div_le_lower_bound; lia).
  assert (Htot : total = Z.of_nat (List.length mine)) by reflexivity.
  assert (Hoff : (Z.to_nat (Z.max (page - 1) 0 * 5) < List.length mine)%nat) by lia.
  unfold limit_offset. cbn -[skipn firstn].
  intros Hnil. apply (f_equal (@List.length order)) in Hnil.
  rewrite length_firstn, length_skipn, Hlen in Hnil. change (PosDef.Pos.to_nat 5) with 5%nat in Hnil. cbn [List.length] in Hnil. lia.
Qed.

(** The first load of page 1 (the watcher [reactive(1)] runs on mount)
    leaves the screen consistent with the store, and every press of
    [<] or [>] and every edit of the page input keeps it consistent without
    writing to the store: [<] and [>] move one page and stop at 1 and at
    [page_cnt], a digit string moves to it clamped into [1 .. page_cnt],
    other text does nothing.  While consistent, the table of a customer
    with at least one order is never empty. *)
Theorem past_orders_screen_steps uid e sc d :
  let total := Z.of_nat (List.length (filter (fun o => o.(o_cid) =? uid) d.(orders))) in
  (exists sc0, load_orders uid 1 (mkScreen 1 1 []) d = (Ok sc0, d) /\
               screen_consistent uid sc0 d) /\
  (screen_consistent uid sc d ->
   (1 <= total -> sc.(shown) <> []) /\
   exists sc', screen_step uid e sc d = (Ok sc', d) /\ screen_consistent uid sc' d /\
     (e = PressPrev -> sc'.(page_idx) = Z.max 1 (sc.(page_idx) - 1)) /\
     (e = PressNext -> sc'.(page_idx) = Z.min sc.(page_cnt) (sc.(page_idx) + 1)) /\
     (forall v, e = PageInput v ->
        sc'.(page_idx) =
          if isdigit (list_ascii_of_string v)
          then Z.max 1 (Z.min (digits_value (list_ascii_of_string v)) sc.(page_cnt))
          else sc.(page_idx))).
Proof.
  intros total. split.
  { rewrite load_orders_eq. eexists. split; [reflexivity|].
    unfold screen_consistent. cbn [page_idx page_cnt shown].
    pose proof (Z.le_max_r ((total + 4) / 5) 1).
    split; [unfold past_orders_page_cnt in *; fold total; lia|].
    split; reflexivity. }
  intros Hc. split.
  { intros Ht. destruct Hc as [Hi [Hcnt Hl]]. fold total in Hcnt, Hl.
    rewrite Hcnt in Hi.
    destruct (list_orders_page_nonempty uid sc.(page_idx) d Ht Hi) as [rows [Hr Hne]].
    rewrite Hl in Hr. congruence. }
  pose proof Hc as [Hi [Hcnt Hl]].
  destruct e as [| |v]; cbn [screen_step].
  - unfold handle_prev. destruct (page_idx sc >? 1) eqn:E.
    + apply Z.gtb_lt in E.
      destruct (set_page_idx_consistent uid (page_idx sc - 1) sc d ltac:(lia) ltac:(lia) Hc)
        as [sc' [Hs [Hp Hc']]].
      exists sc'. rewrite Hs. split; [reflexivity|]. split; [exact Hc'|].
      split; [intros _; lia|]. split; intros; discriminate.
    + rewrite Z.gtb_ltb, Z.ltb_ge in E. exists sc. split; [reflexivity|]. split; [exact Hc|].
      split; [intros _; lia|]. split; intros; discriminate.
  - unfold handle_next. destruct (page_idx sc <? page_cnt sc) eqn:E.
    + apply Z.ltb_lt in E.
      destruct (set_page_idx_consistent uid (page_idx sc + 1) sc d ltac:(lia) ltac:(lia) Hc)
        as [sc' [Hs [Hp Hc']]].
      exists sc'. rewrite Hs. split; [reflexivity|]. split; [exact Hc'|].
      split; [intros; discriminate|]. split; [intros _; lia|]. intros; discriminate.
    + apply Z.ltb_ge in E. exists sc. split; [reflexivity|]. split; [exact Hc|].
      split; [intros; discriminate|]. split; [intros _; lia|]. intros; discriminate.
  - unfold handle_page_input. cbv zeta.
    destruct (isdigit (list_ascii_of_string v)) eqn:Ed.
    + set (n := Z.max 1 (Z.min (digits_value (list_ascii_of_string v)) (page_cnt sc))).
      destruct (n =? page_idx sc) eqn:En; cbn [negb].
      * apply Z.eqb_eq in En. exists sc. split; [reflexivity|]. split; [exact Hc|].
        split; [intros; discriminate|]. split; [intros; discriminate|].
        intros v' Hv. injection Hv as <-. rewrite Ed. symmetry. exact En.
      * apply Z.eqb_neq in En.
        destruct (set_page_idx_consistent uid n sc d En ltac:(unfold n; lia) Hc)
          as [sc' [Hs [Hp Hc']]].
        exists sc'. rewrite Hs. split; [reflexivity|]. split; [exact Hc'|].
        split; [intros; discriminate|]. split; [intros; discriminate|].
        intros v' Hv. injection Hv as <-. rewrite Ed. exact Hp.
    + exists sc. split; [reflexivity|]. split; [exact Hc|].
      split; [intros; discriminate|]. split; [intros; discriminate|].
      intros v' Hv. injection Hv as <-. now rewrite Ed.
Qed.

(** [handle_refresh] (the refresh button, a mode switch, a resumed screen
    or a new order) loads page 1 into the table but leaves [page_idx] and
    the page input as they were: from a consistent screen the result is
    consistent only when page [page_idx] lists the same orders as page 1. *)
Theorem past_orders_refresh_page_one uid sc d :
  screen_consistent uid sc d ->
  let total := Z.of_nat (List.length (filter (fun o => o.(o_cid) =? uid) d.(orders))) in
  exists sc',
    handle_refresh uid sc d = (Ok sc', d) /\
    sc'.(page_idx) = sc.(page_idx) /\
    sc'.(page_cnt) = past_orders_page_cnt total /\
    fst (list_orders uid 1 5 d) = Ok (sc'.(shown), total) /\
    (screen_consistent uid sc' d <->
     fst (list_orders uid sc.(page_idx) 5 d) = fst (list_orders uid 1 5 d)).
Proof.
  intros Hc total. pose proof Hc as [Hi [Hcnt Hl]]. fold total in Hcnt, Hl.
  unfold handle_refresh. rewrite load_orders_eq.
  eexists. split; [reflexivity|]. cbn [page_idx page_cnt shown].
  split; [reflexivity|]. split; [reflexivity|]. split; [reflexivity|].
  unfold screen_consistent. cbn [page_idx page_cnt shown]. fold total.
  split.
  - intros [_ [_ H]]. rewrite H. reflexivity.
  - intros H. rewrite Hcnt in Hi. split; [exact Hi|]. split; [reflexivity|].
    rewrite H. reflexivity.
Qed.

(** Six orders of customer 7 on days 1 .. 6. *)
Definition db_six_orders : db :=
  mkDb [] []
       (map (fun i => mkOrder i 7 1 i "a"%string) [1; 2; 3; 4; 5; 6])
       [] [].

(** Witness: on page 2 (order 1, the oldest) a refresh shows orders 6 .. 2
    while the page index stays 2. *)
Lemma past_orders_refresh_page_one_witness :
  screen_consistent 7 (mkScreen 2 2 [mkOrder 1 7 1 1 "a"%string]) db_six_orders /\
  exists sc',
    handle_refresh 7 (mkScreen 2 2 [mkOrder 1 7 1 1 "a"%string]) db_six_orders =
      (Ok sc', db_six_orders) /\
    sc'.(page_idx) = 2 /\ map o_ono sc'.(shown) = [6; 5; 4; 3; 2] /\
    ~ screen_consistent 7 sc' db_six_orders.
Proof.
  assert (Hc : screen_consistent 7 (mkScreen 2 2 [mkOrder 1 7 1 1 "a"%string]) db_six_orders).
  { unfold screen_consistent. vm_compute. split; [split; discriminate|].
    split; reflexivity. }
  split; [exact Hc|].
  destruct (past_orders_refresh_page_one 7 _ _ Hc) as [sc' [Hr [Hp [_ [Hs Hiff]]]]].
  exists sc'. split; [exact Hr|]. split; [exact Hp|].
  split.
  - remember (shown sc') as sh eqn:Esh. vm_compute in Hs. injection Hs as Hs.
    rewrite <- Hs. reflexivity.
  - rewrite Hiff. vm_compute. discriminate.
Defined.

(** * The product detail modal (views/modal_prod_detail.py, lines 60-159) *)

(** [on_mount]: the first [list_cart] item with the modal's pid. *)
Definition existing_cart_item (uid sessionNo p : Z) : M (option cart_row) :=
  items <- list_cart uid sessionNo ;;
  ret (find (fun it => it.(c_pid) =? p) items).

(** [handle_addcart]: [add_to_cart] when the product was not in the cart,
    [update_cart_qty] with the item's pid otherwise. *)
Definition handle_addcart (uid sessionNo p order_qty : Z) (existing : option cart_row) : M unit :=
  match existing with
  | None => add_to_cart uid sessionNo p order_qty
  | Some it => update_cart_qty uid sessionNo it.(c_pid) order_qty
  end.

(** Opening the modal on [p] and pressing its add button with [order_qty]. *)
Definition prod_detail_add (uid sessionNo p order_qty : Z) : M unit :=
  existing <- existing_cart_item uid sessionNo p ;;
  handle_addcart uid sessionNo p order_qty existing.

(** ** Properties of the product detail modal *)

Lemma list_cart_find_none uid s p cs :
  find (fun it => it.(c_pid) =? p)
       (map (fun '(q, n) => mkCartRow uid s q n) (group_cart uid cs)) = None ->
  filter (pair_row uid p) cs = [].
Proof.
  intros H. apply filter_all_false. intros r Hr.
  destruct (pair_row uid p r) eqn:E; [exfalso|reflexivity].
  unfold pair_row in E. apply andb_true_iff in E as [Ec Ep].
  apply Z.eqb_eq in Ec, Ep.
  set (rs := filter (fun r => r.(c_cid) =? uid) cs).
  assert (Hin : In (mkCartRow uid s p (sum_qty (filter (fun r => r.(c_pid) =? p) rs)))
                   (map (fun '(q, n) => mkCartRow uid s q n) (group_cart uid cs))).
  { apply in_map_iff. exists (p, sum_qty (filter (fun r => r.(c_pid) =? p) rs)).
    split; [reflexivity|]. unfold group_cart. fold rs. apply in_map_iff.
    exists p. split; [reflexivity|]. apply nodup_In, in_map_iff. exists r.
    split; [exact Ep|]. apply filter_In. split; [exact Hr|]. now apply Z.eqb_eq. }
  pose proof (find_none _ _ H _ Hin) as Hf. simpl in Hf. now rewrite Z.eqb_refl in Hf.
Qed.

(** Whether the product was in the cart or not, the modal's add button on
    a product in stock with a quantity of at least 1 leaves exactly one
    cart row for the customer and the product, under the current session,
    holding [min(order_qty, stock_count)]: an item already in the cart is
    set to the quantity, not increased by it.  No other customer's or
    product's rows and no other table change. *)
Theorem prod_detail_add_sets_qty uid s p q d pr :
  find_product p d.(products) = Some pr -> 1 <= pr.(stock_count) -> 1 <= q ->
  let d' := snd (prod_detail_add uid s p q d) in
  fst (prod_detail_add uid s p q d) = Ok tt /\
  filter (pair_row uid p) d'.(cart) = [mkCartRow uid s p (Z.min q pr.(stock_count))] /\
  (forall c' p', c' <> uid \/ p' <> p ->
     filter (pair_row c' p') d'.(cart) = filter (pair_row c' p') d.(cart)) /\
  d'.(products) = d.(products) /\ d'.(orders) = d.(orders) /\
  d'.(orderlines) = d.(orderlines) /\ d'.(search) = d.(search).
Proof.
  intros Hf Hst Hq.
  assert (Hd : prod_detail_add uid s p q d =
               (Ok tt, set_cart d (remove_pair uid p d.(cart) ++
                                   [mkCartRow uid s p (Z.min q pr.(stock_count))]))).
  { unfold prod_detail_add, existing_cart_item, bind, ret, list_cart. cbn [handle_addcart].
    destruct (find (fun it => c_pid it =? p)
                (map (fun '(q0, n) => mkCartRow uid s q0 n) (group_cart uid (cart d))))
      as [it|] eqn:E.
    - apply find_some in E as [_ Ep]. apply Z.eqb_eq in Ep. cbn [handle_addcart].
      rewrite Ep, update_cart_qty_eq, (current_stock_find d p pr Hf).
      replace (q <? 0) with false by (symmetry; apply Z.ltb_ge; lia).
      replace (q =? 0) with false by (symmetry; apply Z.eqb_neq; lia).
      reflexivity.
    - apply list_cart_find_none in E. cbn [handle_addcart].
      rewrite add_to_cart_eq, (current_stock_find d p pr Hf).
      replace ((stock_count pr <=? 0) || (q <=? 0)) with false
        by (symmetry; apply orb_false_iff; split; apply Z.leb_gt; lia).
      unfold qty_of. rewrite E. reflexivity. }
  cbn zeta. rewrite Hd. cbn [fst snd set_cart cart products orders orderlines search].
  split; [reflexivity|]. split.
  - rewrite filter_replace_pair, !Z.eqb_refl. reflexivity.
  - split; [|repeat split].
    intros c' p' Hne. rewrite filter_replace_pair.
    replace ((c' =? uid) && (p' =? p)) with false; [reflexivity|].
    symmetry. apply andb_false_iff. destruct Hne as [Hne|Hne]; [left|right];
    now apply Z.eqb_neq.
Qed.

(** Customer 7 already holds 2 keyboards in session 1 and 1 more in
    session 2. *)
Definition db_keyboard_cart : db :=
  mkDb [keyboard; sold_out_mouse]
       [mkCartRow 7 1 10 2; mkCartRow 7 2 10 1; mkCartRow 8 1 10 4]
       [] [] [].

(** Witness: asking for 4 keyboards in session 3 sets the customer's
    keyboard quantity to 4 (not 3 + 4, nor the stock 5). *)
Lemma prod_detail_add_sets_qty_witness :
  find_product 10 db_keyboard_cart.(products) = Some keyboard /\ 1 <= keyboard.(stock_count) /\
  1 <= 4 /\
  filter (pair_row 7 10) (snd (prod_detail_add 7 3 10 4 db_keyboard_cart)).(cart) =
    [mkCartRow 7 3 10 4].
Proof.
  split; [reflexivity|]. split; [vm_compute; discriminate|]. split; [lia|].
  destruct (prod_detail_add_sets_qty 7 3 10 4 db_keyboard_cart keyboard eq_refl
              ltac:(vm_compute; discriminate) ltac:(lia)) as [_ [H _]].
  exact H.
Defined.

(** * The checkout modal (views/modal_checkout.py, lines 36-91) *)




(** ** Properties of the checkout modal *)




(** ** Sales product screen: updating price and stock
    (views/scr_sales_manage_product.py, handle_update, lines 103-127) *)

Inductive update_notice := NothingToUpdate | UpdateSucceeded | UpdateFailed.

(** The two inputs as [float(price_input.value)] and [int(stock_input.value)]
    read them: [Some v] for a text that parses to [v] (the price in the
    cents of [price]), [None] for a text the conversion rejects, such as the
    blank its placeholder suggests. The [if not price_input] and
    [if not stock_input] tests are on the widgets, which are always true, so
    they never return early. [None] as result: [prod] is None and
    [prod.price] raises AttributeError before any write. *)
Definition handle_update (current_pid : Z) (price_text stock_text : option Z)
  : M (option update_notice) :=
  prod <- get_product current_pid ;;
  match prod with
  | None => ret None
  | Some pr =>
    match price_text with
    | None => raise (ValueError "could not convert string to float")
    | Some new_price =>
      match stock_text with
      | None => raise (ValueError "invalid literal for int() with base 10")
      | Some new_stock =>
        if (new_price =? pr.(price)) && (new_stock =? pr.(stock_count))
        then ret (Some NothingToUpdate)
        else ok <- update_product_price_stock pr.(pid) (Some new_price) (Some new_stock) ;;
             ret (Some (if ok then UpdateSucceeded else UpdateFailed))
      end
    end
  end.

Lemma update_product_price_stock_some p a b d pr :
  find_product p d.(products) = Some pr ->
  update_product_price_stock p (Some a) (Some b) d =
  (Ok true, set_products d (map (fun r => if pid r =? p then with_price_stock r a b else r)
                               d.(products))).
Proof.
  intros Hf. pose proof (find_product_count _ _ _ Hf) as Hc.
  cbv [update_product_price_stock bind select_price_stock ret update_price_stock].
  rewrite Hf. simpl.
  replace (Z.of_nat _ >? 0) with true by (symmetry; apply Z.gtb_lt; lia).
  reflexivity.
Qed.

(** On a product that exists, [handle_update] raises ValueError without a
    write when the price text or the stock text does not parse; it writes
    nothing and warns "Nothing to update." when both values equal the
    stored ones; otherwise it always reports success, and [get_product]
    then shows both new values, with no bound checked on them (a negative
    stock is stored), while every other product is unchanged. *)
Theorem sales_handle_update p d pr :
  find_product p d.(products) = Some pr ->
  (forall st, handle_update p None st d =
              (Err (ValueError "could not convert string to float"), d)) /\
  (forall a, handle_update p (Some a) None d =
             (Err (ValueError "invalid literal for int() with base 10"), d)) /\
  handle_update p (Some pr.(price)) (Some pr.(stock_count)) d = (Ok (Some NothingToUpdate), d) /\
  (forall a b, a <> pr.(price) \/ b <> pr.(stock_count) ->
     let d' := snd (handle_update p (Some a) (Some b) d) in
     fst (handle_update p (Some a) (Some b) d) = Ok (Some UpdateSucceeded) /\
     fst (get_product p d') = Ok (Some (with_price_stock pr a b)) /\
     (forall q, q <> p -> find_product q d'.(products) = find_product q d.(products)) /\
     d'.(cart) = d.(cart) /\ d'.(orders) = d.(orders) /\ d'.(orderlines) = d.(orderlines)).
Proof.
  intros Hf.
  apply find_some in Hf as Hf'. destruct Hf' as [_ Hp]. apply Z.eqb_eq in Hp.
  split; [|split; [|split]].
  - intros st. cbv [handle_update bind get_product raise]. rewrite Hf. reflexivity.
  - intros a. cbv [handle_update bind get_product raise]. rewrite Hf. reflexivity.
  - cbv [handle_update bind get_product ret]. rewrite Hf, !Z.eqb_refl. reflexivity.
  - intros a b Hn d'.
    set (f := fun r => if pid r =? p then with_price_stock r a b else r).
    assert (Heq : handle_update p (Some a) (Some b) d =
                  (Ok (Some UpdateSucceeded), set_products d (map f d.(products)))).
    { cbv [handle_update bind get_product]. rewrite Hf.
      replace ((a =? price pr) && (b =? stock_count pr)) with false.
      2:{ symmetry. apply andb_false_iff.
          destruct Hn as [Hn|Hn]; [left|right]; apply Z.eqb_neq; exact Hn. }
      rewrite Hp, (update_product_price_stock_some p a b d pr Hf). reflexivity. }
    assert (Hpid : forall r, pid (f r) = pid r)
      by (intros r; unfold f; destruct (pid r =? p); reflexivity).
    subst d'. rewrite Heq. simpl.
    repeat split.
    + unfold get_product. simpl. rewrite find_product_map by exact Hpid.
      rewrite Hf. simpl. unfold f. now rewrite Hp, Z.eqb_refl.
    + intros q Hq. rewrite find_product_map by exact Hpid.
      destruct (find_product q (products d)) as [r|] eqn:Hr; [|reflexivity].
      apply find_some in Hr as [_ Hr]. apply Z.eqb_eq in Hr. simpl. unfold f.
      destruct (Z.eqb_spec (pid r) p); [congruence|reflexivity].
Qed.

(** The keyboard's stock set to -3 at its old price: the update is reported
    as a success and the negative stock is stored. *)
Lemma sales_handle_update_witness :
  find_product 10 db_prices.(products) = Some keyboard /\
  fst (handle_update 10 (Some 4999) (Some (-3)) db_prices) = Ok (Some UpdateSucceeded) /\
  fst (get_product 10 (snd (handle_update 10 (Some 4999) (Some (-3)) db_prices))) =
    Ok (Some (with_price_stock keyboard 4999 (-3))).
Proof.
  assert (Hf : find_product 10 db_prices.(products) = Some keyboard) by reflexivity.
  destruct (sales_handle_update 10 db_prices keyboard Hf) as [_ [_ [_ H]]].
  assert (Hn : 4999 <> keyboard.(price) \/ -3 <> keyboard.(stock_count))
    by (right; unfold keyboard; cbn [stock_count]; lia).
  destruct (H 4999 (-3) Hn) as [H1 [H2 _]].
  split; [exact Hf|]. split; [exact H1|exact H2].
Defined.
